(** * Subset extraction of the PhotoChemCAD database

    A shallow embedding of [scripts/extract_common_compounds_db.py].

    The script talks to SQLite through Python's [sqlite3] module, so the
    embedding has three layers:

    - the relational data model (values, rows, tables with their
      uniqueness constraints, databases as finite maps from table names
      to tables);
    - the statements the script issues, with SQLite's semantics for name
      resolution, NULL comparison, [INSERT] versus [INSERT OR IGNORE] and
      the transaction behaviour of a [sqlite3] connection (DDL runs in
      autocommit mode, the first DML statement opens a transaction,
      [close] without [commit] rolls back);
    - the script's functions, in a state-and-exception monad over the two
      database files and the destination connection.

    What is not modelled: type affinity and collations (values compare
    structurally), NOT NULL / CHECK / foreign-key constraints (foreign keys
    are not enforced by a default connection, and the destination tables
    carry the constraints the source rows already satisfy), the engine's
    limit on the number of bound parameters, and the case-insensitive
    matching of table names (names are compared exactly). *)

From Stdlib Require Import ZArith List Bool.
From stdpp Require Import gmap strings list fin_maps.
Import ListNotations.

Open Scope string_scope.
Open Scope list_scope.

(** ** Values, rows and tables *)

Inductive value : Type :=
| VNull
| VInt (z : Z)
| VText (s : string).

#[global] Instance value_eq_dec : EqDecision value.
Proof. solve_decision. Defined.

Definition row : Type := list value.

(** The structural part of a [CREATE TABLE] statement: the column names and
    the column sets declared PRIMARY KEY or UNIQUE in the statement itself
    (their automatic indexes have a NULL [sql] in [sqlite_master]). *)
Record table_def : Type := TableDef {
  td_columns : list string;
  td_unique : list (list string)
}.

(** A [CREATE [UNIQUE] INDEX] statement on a table. *)
Record index_def : Type := IndexDef {
  ix_name : string;
  ix_unique : bool;
  ix_columns : list string
}.

Record table : Type := Table {
  t_def : table_def;
  t_indexes : list index_def;
  t_rows : list row
}.

#[global] Instance table_def_eq_dec : EqDecision table_def.
Proof. solve_decision. Defined.
#[global] Instance index_def_eq_dec : EqDecision index_def.
Proof. solve_decision. Defined.
#[global] Instance table_eq_dec : EqDecision table.
Proof. solve_decision. Defined.

(** A database (one SQLite file, or one schema of a connection): its tables
    by name.  The empty map is the zero-byte file [sqlite3.connect] creates. *)
Abbreviation database := (gmap string table).

(** ** Errors and the two monads *)

Inductive sql_error : Type :=
| NoSuchTable (name : string)
| NoSuchColumn (name : string)
| TableExists (name : string)
| IndexExists (name : string)
| ColumnCountMismatch (name : string)
| ConstraintFailed (name : string)
| DetachInTransaction
| NoSuchDatabase (name : string).

#[global] Instance sql_error_eq_dec : EqDecision sql_error.
Proof. solve_decision. Defined.

Inductive outcome (A : Type) : Type :=
| Ok (a : A)
| Raise (e : sql_error).
Arguments Ok {A} a.
Arguments Raise {A} e.

#[global] Instance outcome_eq_dec {A : Type} `{EqDecision A} : EqDecision (outcome A).
Proof. solve_decision. Defined.

Definition obind {A B : Type} (m : outcome A) (k : A -> outcome B) : outcome B :=
  match m with
  | Ok a => k a
  | Raise e => Raise e
  end.

Notation "'let?' x := m 'in' k" := (obind m (fun x => k))
  (at level 10, x pattern, m at level 200, k at level 200).

(** ** Columns, cells and SQL comparison *)

Fixpoint column_index (cols : list string) (c : string) : option nat :=
  match cols with
  | [] => None
  | x :: xs => if decide (x = c) then Some 0%nat else S <$> column_index xs c
  end.

Definition has_column (t : table) (c : string) : bool :=
  bool_decide (is_Some (column_index (td_columns (t_def t)) c)).

Definition cell (cols : list string) (c : string) (r : row) : value :=
  match column_index cols c with
  | Some i => nth i r VNull
  | None => VNull
  end.

Definition col (t : table) (c : string) (r : row) : value :=
  cell (td_columns (t_def t)) c r.

(** [a = b] in a WHERE or ON clause: NULL on either side is not true. *)
Definition sql_eq (a b : value) : bool :=
  match a, b with
  | VNull, _ => false
  | _, VNull => false
  | _, _ => bool_decide (a = b)
  end.

(** [a IN (?, ..., ?)] with the bound values [vs]. *)
Definition sql_in (a : value) (vs : list value) : bool :=
  existsb (sql_eq a) vs.

Definition is_null (a : value) : bool :=
  match a with VNull => true | _ => false end.

(** The WHERE clauses of the script. *)
Inductive cond : Type :=
| CTrue
| CEq (c : string) (v : value)
| CIn (c : string) (vs : list value)
| CNotNull (c : string)
| CAnd (a b : cond).

Fixpoint cond_columns (w : cond) : list string :=
  match w with
  | CTrue => []
  | CEq c _ => [c]
  | CIn c _ => [c]
  | CNotNull c => [c]
  | CAnd a b => cond_columns a ++ cond_columns b
  end.

Fixpoint eval_cond (t : table) (w : cond) (r : row) : bool :=
  match w with
  | CTrue => true
  | CEq c v => sql_eq (col t c r) v
  | CIn c vs => sql_in (col t c r) vs
  | CNotNull c => negb (is_null (col t c r))
  | CAnd a b => eval_cond t a r && eval_cond t b r
  end.

(** Preparing a statement fails on the first column the table lacks. *)
Fixpoint check_columns (t : table) (cs : list string) : outcome unit :=
  match cs with
  | [] => Ok tt
  | c :: cs' => if has_column t c then check_columns t cs' else Raise (NoSuchColumn c)
  end.

(** ** Uniqueness constraints and insertion *)

(** The column sets that must be unique in a table: those of its definition
    and those of its UNIQUE indexes. *)
Definition unique_keys (t : table) : list (list string) :=
  td_unique (t_def t) ++ map ix_columns (List.filter ix_unique (t_indexes t)).

(** Two rows collide on a key when they agree on every column of it, NULLs
    being distinct from everything. *)
Definition key_conflict (cols : list string) (key : list string) (r r' : row) : bool :=
  forallb (fun c => sql_eq (cell cols c r) (cell cols c r')) key.

Definition row_conflict (cols : list string) (keys : list (list string)) (r r' : row) : bool :=
  existsb (fun key => key_conflict cols key r r') keys.

Definition conflicts (t : table) (r : row) : bool :=
  existsb (row_conflict (td_columns (t_def t)) (unique_keys t) r) (t_rows t).

Inductive conflict_mode : Type :=
| Strict      (* INSERT INTO: a conflict aborts the statement *)
| OrIgnore.   (* INSERT OR IGNORE INTO: a conflicting row is skipped *)

Definition add_row (t : table) (r : row) : table :=
  Table (t_def t) (t_indexes t) (t_rows t ++ [r]).

Fixpoint insert_rows (mode : conflict_mode) (name : string) (t : table) (rows : list row)
  : outcome table :=
  match rows with
  | [] => Ok t
  | r :: rest =>
      if conflicts t r then
        match mode with
        | Strict => Raise (ConstraintFailed name)
        | OrIgnore => insert_rows mode name t rest
        end
      else insert_rows mode name (add_row t r) rest
  end.

(** The rows of a list are pairwise free of collisions. *)
Fixpoint conflict_free (cols : list string) (keys : list (list string)) (rows : list row) : bool :=
  match rows with
  | [] => true
  | r :: rest =>
      negb (existsb (row_conflict cols keys r) rest) && conflict_free cols keys rest
  end.

(** ** The destination connection and the two files *)

(** Paths relative to the project root. *)
Definition SOURCE_DB : string := "assets/data/photochemcad.db".
Definition OUTPUT_DB : string := "assets/data/photochemcad_common_compounds.db".
Definition TARGET_DATABASE_NAME : string := "Common Compounds".

(** The files that are SQLite databases, by path. *)
Abbreviation filesystem := (gmap string database).

Inductive schema_name : Type :=
| MainDb    (* the file the connection was opened on *)
| SrcDb.    (* the database attached AS src *)

(** The state a run works on: the files, and the destination connection
    [conn_dst] with its working copy of [main], of the attached database,
    and whether a transaction is open.  The working copies reach the files
    when they are committed. *)
Record world : Type := World {
  w_fs : filesystem;
  w_main : database;
  w_src : option database;
  w_txn : bool
}.

#[global] Instance world_eq_dec : EqDecision world.
Proof. solve_decision. Defined.

Definition set_fs (f : filesystem -> filesystem) (w : world) : world :=
  World (f (w_fs w)) (w_main w) (w_src w) (w_txn w).
Definition set_main (f : database -> database) (w : world) : world :=
  World (w_fs w) (f (w_main w)) (w_src w) (w_txn w).
Definition set_src (s : option database) (w : world) : world :=
  World (w_fs w) (w_main w) s (w_txn w).
Definition set_txn (b : bool) (w : world) : world :=
  World (w_fs w) (w_main w) (w_src w) b.

(** State and exception monad of the script's body. *)
Definition M (A : Type) : Type := world -> outcome A * world.

Definition ret {A : Type} (a : A) : M A := fun w => (Ok a, w).

Definition bind {A B : Type} (m : M A) (k : A -> M B) : M B :=
  fun w =>
    match m w with
    | (Ok a, w') => k a w'
    | (Raise e, w') => (Raise e, w')
    end.

Notation "x <- m ;; k" := (bind m (fun x => k))
  (at level 100, m at next level, right associativity).
Notation "m ;; k" := (bind m (fun _ => k))
  (at level 100, right associativity).

(** Python's [for x in xs: body]. *)
Fixpoint for_each {A : Type} (xs : list A) (body : A -> M unit) : M unit :=
  match xs with
  | [] => ret tt
  | x :: rest => body x ;; for_each rest body
  end.

(** Writing the working copies to their files. *)
Definition flush (w : world) : world :=
  set_fs (fun fs =>
            let fs' := <[OUTPUT_DB := w_main w]> fs in
            match w_src w with
            | Some d => <[SOURCE_DB := d]> fs'
            | None => fs'
            end) w.

(** Table name resolution: a qualified name is looked up in its schema, an
    unqualified one in [main] first and then in the attached database. *)
Definition lookup_table (w : world) (schema : option schema_name) (name : string)
  : outcome (schema_name * table) :=
  let in_main := w_main w !! name in
  let in_src := w_src w ≫= (fun d => d !! name) in
  match schema with
  | Some MainDb =>
      match in_main with Some t => Ok (MainDb, t) | None => Raise (NoSuchTable name) end
  | Some SrcDb =>
      match in_src with Some t => Ok (SrcDb, t) | None => Raise (NoSuchTable name) end
  | None =>
      match in_main, in_src with
      | Some t, _ => Ok (MainDb, t)
      | None, Some t => Ok (SrcDb, t)
      | None, None => Raise (NoSuchTable name)
      end
  end.

Definition store_table (w : world) (schema : schema_name) (name : string) (t : table) : world :=
  match schema with
  | MainDb => set_main (fun d => <[name := t]> d) w
  | SrcDb => set_src ((fun d => <[name := t]> d) <$> w_src w) w
  end.

(** *** Queries *)

(** [SELECT * FROM schema.name WHERE wh]: the table (for its columns) and
    the selected rows. *)
Definition select_from (schema : option schema_name) (name : string) (wh : cond) (w : world)
  : outcome (table * list row) :=
  let? (_, t) := lookup_table w schema name in
  let? _ := check_columns t (cond_columns wh) in
  Ok (t, List.filter (eval_cond t wh) (t_rows t)).

(** [SELECT c FROM schema.name WHERE wh]. *)
Definition select_column (schema : option schema_name) (name : string) (c : string) (wh : cond)
  (w : world) : outcome (list value) :=
  let? (_, t) := lookup_table w schema name in
  let? _ := check_columns t (c :: cond_columns wh) in
  Ok (map (col t c) (List.filter (eval_cond t wh) (t_rows t))).

(** [SELECT COUNT( * ) FROM name]. *)
Definition select_count (name : string) (w : world) : outcome nat :=
  let? (_, t) := lookup_table w None name in
  Ok (length (t_rows t)).

(** [SELECT DISTINCT c.* FROM src.cats c INNER JOIN src.comps comp
     ON comp.fk = c.key WHERE comp.sel IN (ids)]. *)
Definition select_join_distinct (cats comps : string) (fk key sel : string) (ids : list value)
  (w : world) : outcome (table * list row) :=
  let? (_, tc) := lookup_table w (Some SrcDb) cats in
  let? (_, tp) := lookup_table w (Some SrcDb) comps in
  let? _ := check_columns tp [fk] in
  let? _ := check_columns tc [key] in
  let? _ := check_columns tp [sel] in
  Ok (tc,
      remove_dups
        (flat_map (fun c =>
           flat_map (fun comp =>
             if sql_eq (col tp fk comp) (col tc key c) && sql_in (col tp sel comp) ids
             then [c] else [])
             (t_rows tp))
           (t_rows tc))).

(** *** Data modification *)

(** [INSERT [OR IGNORE] INTO target] of the rows a SELECT produced, [width]
    columns wide. *)
Definition insert_into (mode : conflict_mode) (target : string) (width : nat) (rows : list row)
  (w : world) : outcome world :=
  let? (s, t) := lookup_table w None target in
  if decide (width = length (td_columns (t_def t))) then
    let? t' := insert_rows mode target t rows in
    Ok (store_table w s target t')
  else Raise (ColumnCountMismatch target).

(** [INSERT [OR IGNORE] INTO target SELECT * FROM src.source WHERE wh]. *)
Definition insert_select (mode : conflict_mode) (target source : string) (wh : cond)
  (w : world) : outcome world :=
  let? (t, rows) := select_from (Some SrcDb) source wh w in
  insert_into mode target (length (td_columns (t_def t))) rows w.

(** *** Data definition *)

Inductive ddl : Type :=
| CreateTable (name : string) (def : table_def)
| CreateIndex (tbl : string) (ix : index_def).

Definition index_name_used (d : database) (name : string) : bool :=
  bool_decide (map_Exists (fun _ t => name ∈ map ix_name (t_indexes t)) d).

(** Unqualified CREATE statements always work on [main]. *)
Definition run_ddl (s : ddl) (main : database) : outcome database :=
  match s with
  | CreateTable name def =>
      match main !! name with
      | Some _ => Raise (TableExists name)
      | None => Ok (<[name := Table def [] []]> main)
      end
  | CreateIndex tbl ix =>
      match main !! tbl with
      | None => Raise (NoSuchTable tbl)
      | Some t =>
          if index_name_used main (ix_name ix) then Raise (IndexExists (ix_name ix))
          else
            let? _ := check_columns t (ix_columns ix) in
            if ix_unique ix
               && negb (conflict_free (td_columns (t_def t)) [ix_columns ix] (t_rows t))
            then Raise (ConstraintFailed tbl)
            else Ok (<[tbl := Table (t_def t) (t_indexes t ++ [ix]) (t_rows t)]> main)
      end
  end.

(** [INSERT OR IGNORE INTO target SELECT DISTINCT c.* FROM src.cats c
     INNER JOIN src.comps comp ON comp.fk = c.key WHERE comp.sel IN (ids)]. *)
Definition insert_select_join (mode : conflict_mode) (target cats comps : string)
  (fk key sel : string) (ids : list value) (w : world) : outcome world :=
  let? (t, rows) := select_join_distinct cats comps fk key sel ids w in
  insert_into mode target (length (td_columns (t_def t))) rows w.

(** ** Python's [sqlite3] connection *)

Definition is_constraint_error (e : sql_error) : bool :=
  match e with ConstraintFailed _ => true | _ => false end.

(** [sqlite3.connect(OUTPUT_DB)]: opens the file, creating it empty when it
    does not exist. *)
Definition connect (fs : filesystem) : world :=
  match fs !! OUTPUT_DB with
  | Some d => World fs d None false
  | None => World (<[OUTPUT_DB := ∅]> fs) ∅ None false
  end.

(** [conn_dst.execute] of a SELECT: no transaction is opened. *)
Definition execute_query {A : Type} (q : world -> outcome A) : M A :=
  fun w => (q w, w).

(** [conn_dst.execute] of an INSERT: the module opens a transaction before
    it runs the prepared statement; the statement either takes effect as a
    whole or raises and changes nothing. *)
Definition execute_dml (stmt : world -> outcome world) : M unit :=
  fun w =>
    match stmt w with
    | Ok w' => (Ok tt, set_txn true w')
    | Raise e => (Raise e, if is_constraint_error e then set_txn true w else w)
    end.

(** [conn_dst.execute] of a CREATE statement: no transaction is opened, so
    outside a transaction the statement is committed as it completes. *)
Definition execute_ddl (s : ddl) : M unit :=
  fun w =>
    match run_ddl s (w_main w) with
    | Ok main' =>
        let w' := set_main (fun _ => main') w in
        (Ok tt, if w_txn w' then w' else flush w')
    | Raise e => (Raise e, w)
    end.

(** [ATTACH DATABASE ? AS src] with the path of the source file. *)
Definition attach : M unit :=
  fun w => (Ok tt, set_src (Some (default ∅ (w_fs w !! SOURCE_DB))) w).

(** [DETACH DATABASE src]. *)
Definition detach : M unit :=
  fun w =>
    if w_txn w then (Raise DetachInTransaction, w)
    else match w_src w with
         | Some _ => (Ok tt, set_src None w)
         | None => (Raise (NoSuchDatabase "src"), w)
         end.

(** [conn_dst.commit()]. *)
Definition commit : M unit :=
  fun w => (Ok tt, if w_txn w then set_txn false (flush w) else w).

(** [conn_dst.close()]: what was not committed is rolled back; the files
    stay as they are. *)
Definition close (w : world) : filesystem := w_fs w.

(** ** The script *)

(** The catalog [conn_src = sqlite3.connect(SOURCE_DB)] reads. *)
Definition conn_src (w : world) : database := default ∅ (w_fs w !! SOURCE_DB).

(** [SELECT sql FROM sqlite_master WHERE type = 'table' AND name = ?]:
    the CREATE TABLE statement of the table, or [None]. *)
Definition get_schema (table : string) : M (option ddl) :=
  fun w => (Ok ((fun t => CreateTable table (t_def t)) <$> conn_src w !! table), w).

(** [SELECT sql FROM sqlite_master WHERE type = 'index' AND tbl_name = ?
     AND sql IS NOT NULL]: the CREATE INDEX statements on the table. *)
Definition get_index_sql (table : string) : M (list ddl) :=
  fun w => (Ok (match conn_src w !! table with
                | Some t => map (CreateIndex table) (t_indexes t)
                | None => []
                end), w).

Definition copy_table_schema (table : string) : M unit :=
  schema <- get_schema table ;;
  match schema with
  | None => ret tt
  | Some s =>
      execute_ddl s ;;
      idxs <- get_index_sql table ;;
      for_each idxs execute_ddl
  end.

Definition tables_to_copy : list string :=
  [ "spectra_databases";
    "common_compound_categories";
    "solar_spectra";
    "compounds_absorptions_backup";
    "compounds_absorptions";
    "compound_absorption_normalized_status";
    "compounds_emissions_backup";
    "compounds_emissions";
    "compound_emission_normalized_status";
    "compounds" ].

Definition linked_tables : list string :=
  [ "compounds_absorptions";
    "compounds_emissions";
    "compound_absorption_normalized_status";
    "compound_emission_normalized_status" ].

(** Step 3 of [main], "Copy data from src.* into main.*": every INSERT,
    from the first to the last, in the order of the script. *)
Definition copy_data (compound_ids : list value) : M unit :=
  execute_dml
    (insert_select OrIgnore "spectra_databases" "spectra_databases"
       (CEq "name" (VText TARGET_DATABASE_NAME))) ;;
  dids <- execute_query
    (fun w =>
       let? ds := select_column (Some SrcDb) "compounds" "database_id"
                    (CAnd (CEq "database_name" (VText TARGET_DATABASE_NAME))
                          (CNotNull "database_id")) w in
       Ok (remove_dups ds)) ;;
  for_each dids (fun did =>
    execute_dml
      (insert_select OrIgnore "spectra_databases" "spectra_databases" (CEq "id" did))) ;;
  execute_dml
    (insert_select_join OrIgnore "common_compound_categories"
       "common_compound_categories" "compounds" "category_id" "id" "id" compound_ids) ;;
  execute_dml (insert_select OrIgnore "solar_spectra" "solar_spectra" CTrue) ;;
  execute_dml (insert_select Strict "compounds" "compounds" (CIn "id" compound_ids)) ;;
  for_each linked_tables (fun table =>
    execute_dml (insert_select Strict table table (CIn "compound_id" compound_ids))) ;;
  execute_dml
    (insert_select Strict "compounds_absorptions_backup" "compounds_absorptions_backup"
       (CIn "compound_id" compound_ids)) ;;
  execute_dml
    (insert_select Strict "compounds_emissions_backup" "compounds_emissions_backup"
       (CIn "compound_id" compound_ids)).

(** The end of the [try] block: commit, detach, and the three counts of
    the summary line. *)
Definition finish : M (option (nat * nat * nat)) :=
  commit ;;
  detach ;;
  n_comp <- execute_query (select_count "compounds") ;;
  n_abs <- execute_query (select_count "compounds_absorptions") ;;
  n_em <- execute_query (select_count "compounds_emissions") ;;
  ret (Some (n_comp, n_abs, n_em)).

(** The body of the [try] block of [main]: [None] for the early return on
    an empty selection, the three counts of the summary otherwise. *)
Definition main_body : M (option (nat * nat * nat)) :=
  attach ;;
  (* 1) Get Common Compounds compound IDs from attached source *)
  compound_ids <- execute_query
    (select_column (Some SrcDb) "compounds" "id"
       (CEq "database_name" (VText TARGET_DATABASE_NAME))) ;;
  match compound_ids with
  | [] => ret None
  | _ :: _ =>
      (* 2) Copy schema from source *)
      for_each tables_to_copy copy_table_schema ;;
      (* 3) Copy data from src.* into main.* *)
      copy_data compound_ids ;;
      finish
  end.

(** What a run reports: the two benign early returns, the success line
    with its summary, or the exception that ended it. *)
Inductive report : Type :=
| SourceNotFound
| NoCompoundsFound
| Written (n_comp n_abs n_em : nat)
| Failed (e : sql_error).

#[global] Instance report_eq_dec : EqDecision report.
Proof. solve_decision. Defined.

Definition main (fs : filesystem) : report * filesystem :=
  match fs !! SOURCE_DB with
  | None => (SourceNotFound, fs)
  | Some _ =>
      let fs1 := match fs !! OUTPUT_DB with
                 | Some _ => delete OUTPUT_DB fs
                 | None => fs
                 end in
      let (r, w) := main_body (connect fs1) in
      (match r with
       | Ok None => NoCompoundsFound
       | Ok (Some (n_comp, n_abs, n_em)) => Written n_comp n_abs n_em
       | Raise e => Failed e
       end,
       close w)
  end.

(** ** Vocabulary for the statements about a run *)

(** The rows of a table of a database (none when the table is missing) and
    the value of a named column in one of them. *)
Definition rows_of (d : database) (T : string) : list row :=
  match d !! T with
  | Some t => t_rows t
  | None => []
  end.

Definition cell_of (d : database) (T c : string) (r : row) : value :=
  match d !! T with
  | Some t => col t c r
  | None => VNull
  end.

(** The six tables keyed by [compound_id]. *)
Definition dependent_tables : list string :=
  linked_tables ++ ["compounds_absorptions_backup"; "compounds_emissions_backup"].

(** A database in which no table holds a row. *)
Definition rows_empty (d : database) : Prop :=
  forall T t, d !! T = Some t -> t_rows t = [].

(** What SQLite maintains in every database file: the rows of a table
    satisfy the uniqueness constraints of the table. *)
Definition table_wf (t : table) : bool :=
  conflict_free (td_columns (t_def t)) (unique_keys t) (t_rows t).

Definition db_wf (d : database) : Prop :=
  map_Forall (fun _ t => table_wf t = true) d.

#[global] Instance db_wf_dec (d : database) : Decision (db_wf d).
Proof. unfold db_wf. apply _. Defined.

(** [SELECT c FROM T WHERE wh] on a database. *)
Definition query_column (d : database) (T c : string) (wh : cond) : outcome (list value) :=
  match d !! T with
  | Some t =>
      let? _ := check_columns t (c :: cond_columns wh) in
      Ok (map (col t c) (List.filter (eval_cond t wh) (t_rows t)))
  | None => Raise (NoSuchTable T)
  end.

(** [get_compound_ids(conn)] on a connection to the database [conn]:
    [SELECT id FROM compounds WHERE database_name = ?] with the target
    name.  [main] issues the same query on the attached source. *)
Definition get_compound_ids (conn : database) : outcome (list value) :=
  query_column conn "compounds" "id" (CEq "database_name" (VText TARGET_DATABASE_NAME)).

(** *** States of a run

    With [fs] the files the run started from and [src] the source among
    them, the connection is in one of two kinds of state: everything
    committed ([sync]), or a main schema [main] ahead of the committed
    [sch] ([work]). *)
Definition work (fs : filesystem) (src sch main : database) (txn : bool) : world :=
  World (<[OUTPUT_DB := sch]> fs) main (Some src) txn.

Definition sync (fs : filesystem) (src out : database) : world :=
  work fs src out out false.

(** A run of statements that raised before the commit: the committed
    schema [sch] is what the files hold. *)
Definition raised_at {A : Type} (fs : filesystem) (src sch : database) (r : outcome A)
  (w' : world) : Prop :=
  exists e main' txn', r = Raise e /\ w' = work fs src sch main' txn'.

(** A table as the schema replicator leaves it. *)
Definition empty_copy (s : table) : table := Table (t_def s) (t_indexes s) [].

Fixpoint schema_of (src : database) (names : list string) (out : database) : database :=
  match names with
  | [] => out
  | T :: rest =>
      schema_of src rest
        (match src !! T with
         | Some s => <[T := empty_copy s]> out
         | None => out
         end)
  end.

(** Every table of the fixed list that the source has is in [main], with
    the structure it has in the source. *)
Definition covers (src main : database) : Prop :=
  forall T s, In T tables_to_copy -> src !! T = Some s ->
    exists t, main !! T = Some t /\ t_def t = t_def s /\ t_indexes t = t_indexes s.

(** The rows the filtered copy of a table selects. *)
Definition matching (s : table) (wh : cond) : list row :=
  List.filter (eval_cond s wh) (t_rows s).

(** The rows of the category join. *)
Definition joined (tc tp : table) (ids : list value) : list row :=
  remove_dups
    (flat_map (fun c =>
       flat_map (fun comp =>
         if sql_eq (col tp "category_id" comp) (col tc "id" c)
            && sql_in (col tp "id" comp) ids
         then [c] else [])
         (t_rows tp))
       (t_rows tc)).

(** The loop over the distinct database ids, on the table alone. *)
Fixpoint insert_each_id (s t : table) (dids : list value) : outcome table :=
  match dids with
  | [] => Ok t
  | did :: rest =>
      let? t' := insert_rows OrIgnore "spectra_databases" t (matching s (CEq "id" did)) in
      insert_each_id s t' rest
  end.

(** The statements of [copy_data], each as the insertion it performs on
    the empty copy of its table; [main'] is the main schema after the last
    of them. *)
Definition strict_copy (src main' : database) (ids : list value) (T c : string) : Prop :=
  exists s t' : table,
    src !! T = Some s /\
    check_columns s [c] = Ok tt /\
    insert_rows Strict T (empty_copy s) (matching s (CIn c ids)) = Ok t' /\
    main' !! T = Some t'.

Definition solar_copy (src main' : database) : Prop :=
  exists s t' : table,
    src !! "solar_spectra" = Some s /\
    insert_rows OrIgnore "solar_spectra" (empty_copy s) (t_rows s) = Ok t' /\
    main' !! "solar_spectra" = Some t'.

Definition category_copy (src main' : database) (ids : list value) : Prop :=
  exists tc tp t' : table,
    src !! "common_compound_categories" = Some tc /\
    src !! "compounds" = Some tp /\
    check_columns tp ["category_id"; "id"] = Ok tt /\
    check_columns tc ["id"] = Ok tt /\
    insert_rows OrIgnore "common_compound_categories" (empty_copy tc) (joined tc tp ids)
      = Ok t' /\
    main' !! "common_compound_categories" = Some t'.

Definition database_copy (src main' : database) : Prop :=
  exists (s t1 t2 : table) (ds : list value),
    src !! "spectra_databases" = Some s /\
    check_columns s ["name"] = Ok tt /\
    insert_rows OrIgnore "spectra_databases" (empty_copy s)
      (matching s (CEq "name" (VText TARGET_DATABASE_NAME))) = Ok t1 /\
    query_column src "compounds" "database_id"
      (CAnd (CEq "database_name" (VText TARGET_DATABASE_NAME)) (CNotNull "database_id"))
      = Ok ds /\
    (remove_dups ds <> [] -> check_columns s ["id"] = Ok tt) /\
    insert_each_id s t1 (remove_dups ds) = Ok t2 /\
    main' !! "spectra_databases" = Some t2.

Definition copied (src main' : database) (ids : list value) : Prop :=
  database_copy src main' /\
  category_copy src main' ids /\
  solar_copy src main' /\
  strict_copy src main' ids "compounds" "id" /\
  (forall T, In T dependent_tables -> strict_copy src main' ids T "compound_id").

(** What a run that found the source [src] reports, against the database
    [out] it leaves in the output file. *)
Definition run_result (src out : database) (rep : report) : Prop :=
  match rep with
  | SourceNotFound => False
  | NoCompoundsFound => out = ∅ /\ get_compound_ids src = Ok []
  | Written n_comp n_abs n_em =>
      exists ids, get_compound_ids src = Ok ids /\ ids <> [] /\ copied src out ids /\
                  n_comp = length (rows_of out "compounds") /\
                  n_abs = length (rows_of out "compounds_absorptions") /\
                  n_em = length (rows_of out "compounds_emissions")
  | Failed _ => rows_empty out /\ get_compound_ids src <> Ok []
  end.

Definition report_of (r : outcome (option (nat * nat * nat))) : report :=
  match r with
  | Ok None => NoCompoundsFound
  | Ok (Some (n_comp, n_abs, n_em)) => Written n_comp n_abs n_em
  | Raise e => Failed e
  end.

(** *** The properties of the destination *)







(** Structure and size of a table: what two destinations are compared on. *)
Definition shape_of (d : option database) (T : string)
  : option (table_def * list index_def * nat) :=
  d ≫= (fun db => (fun t => (t_def t, t_indexes t, length (t_rows t))) <$> db !! T).

(** *** The destination against the source *)




(** ** Sample databases *)

Definition spectra_table (rows : list row) : table :=
  Table (TableDef ["compound_id"; "wavelength"; "coefficient"] [["compound_id"; "wavelength"]])
        [] rows.

Definition status_table (rows : list row) : table :=
  Table (TableDef ["compound_id"; "normalized"] [["compound_id"]]) [] rows.

Definition compounds_table (rows : list row) : table :=
  Table (TableDef ["id"; "name"; "database_name"; "database_id"; "category_id"] [["id"]])
        [IndexDef "idx_compounds_database_name" false ["database_name"]] rows.

Definition sample_compounds : table :=
  compounds_table
    [[VText "A01"; VText "Benzene"; VText "Common Compounds"; VInt 1; VInt 10];
     [VText "A02"; VText "Toluene"; VText "Common Compounds"; VInt 1; VNull];
     [VText "B01"; VText "Chlorin e6"; VText "Porphyrins"; VInt 2; VInt 11]].

Definition sample_source : database :=
  list_to_map [
    ("spectra_databases",
      Table (TableDef ["id"; "name"] [["id"]]) []
        [[VInt 1; VText "Common Compounds"]; [VInt 2; VText "Porphyrins"]]);
    ("common_compound_categories",
      Table (TableDef ["id"; "name"] [["id"]]) []
        [[VInt 10; VText "Aromatic hydrocarbons"]; [VInt 11; VText "Chlorins"]]);
    ("solar_spectra",
      Table (TableDef ["wavelength"; "irradiance"] []) []
        [[VInt 300; VInt 1]; [VInt 301; VInt 2]]);
    ("compounds", sample_compounds);
    ("compounds_absorptions",
      spectra_table [[VText "A01"; VInt 250; VInt 5]; [VText "A01"; VInt 251; VInt 6];
                     [VText "B01"; VInt 400; VInt 9]]);
    ("compounds_emissions",
      spectra_table [[VText "A02"; VInt 300; VInt 3]; [VText "B01"; VInt 650; VInt 8]]);
    ("compound_absorption_normalized_status",
      status_table [[VText "A01"; VInt 1]; [VText "B01"; VInt 0]]);
    ("compound_emission_normalized_status",
      status_table [[VText "A02"; VInt 1]]);
    ("compounds_absorptions_backup",
      spectra_table [[VText "A01"; VInt 250; VInt 4]]);
    ("compounds_emissions_backup",
      spectra_table [[VText "B01"; VInt 650; VInt 7]])
  ].

(** What the extraction makes of [sample_source]. *)
Definition sample_output : database :=
  list_to_map [
    ("spectra_databases",
      Table (TableDef ["id"; "name"] [["id"]]) [] [[VInt 1; VText "Common Compounds"]]);
    ("common_compound_categories",
      Table (TableDef ["id"; "name"] [["id"]]) [] [[VInt 10; VText "Aromatic hydrocarbons"]]);
    ("solar_spectra",
      Table (TableDef ["wavelength"; "irradiance"] []) []
        [[VInt 300; VInt 1]; [VInt 301; VInt 2]]);
    ("compounds",
      compounds_table
        [[VText "A01"; VText "Benzene"; VText "Common Compounds"; VInt 1; VInt 10];
         [VText "A02"; VText "Toluene"; VText "Common Compounds"; VInt 1; VNull]]);
    ("compounds_absorptions",
      spectra_table [[VText "A01"; VInt 250; VInt 5]; [VText "A01"; VInt 251; VInt 6]]);
    ("compounds_emissions", spectra_table [[VText "A02"; VInt 300; VInt 3]]);
    ("compound_absorption_normalized_status", status_table [[VText "A01"; VInt 1]]);
    ("compound_emission_normalized_status", status_table [[VText "A02"; VInt 1]]);
    ("compounds_absorptions_backup", spectra_table [[VText "A01"; VInt 250; VInt 4]]);
    ("compounds_emissions_backup", spectra_table [])
  ].

(** An output file left by an earlier run. *)
Definition stale_output : database :=
  {[ "compounds" :=
       compounds_table [[VText "Z99"; VText "Old"; VText "Common Compounds"; VInt 1; VNull]] ]}.

Definition sample_fs : filesystem :=
  <[OUTPUT_DB := stale_output]> {[ SOURCE_DB := sample_source ]}.

(** A source without the last table the script copies. *)
Definition truncated_source : database := delete "compounds_emissions_backup" sample_source.

(** A source in which no compound belongs to the selection. *)
Definition other_source : database :=
  <["compounds" :=
      compounds_table [[VText "B01"; VText "Chlorin e6"; VText "Porphyrins"; VInt 2; VInt 11]]]>
    sample_source.


(** A connection opened on an output file that was not removed. *)
Definition stale_world : world :=
  World (<[OUTPUT_DB := stale_output]> {[ SOURCE_DB := sample_source ]}) stale_output None false.

(** * Properties *)

(** Closed decidable statements about the sample databases are settled by
    evaluating their decision procedure. *)
Ltac by_compute :=
  match goal with
  | |- ?P => apply (bool_decide_eq_true_1 P); vm_compute; reflexivity
  end.

(** ** SQL comparison *)

Lemma sql_eq_true (a b : value) : sql_eq a b = true <-> a = b /\ a <> VNull.
Proof.
  destruct a, b; simpl; rewrite ?bool_decide_eq_true; split;
    try (intros [? ?]); try intros ?; try split; congruence.
Qed.


Lemma sql_in_true (a : value) (vs : list value) :
  sql_in a vs = true <-> In a vs /\ a <> VNull.
Proof.
  unfold sql_in. rewrite existsb_exists. split.
  - intros (b & Hb & Heq). apply sql_eq_true in Heq as [-> Hn]. auto.
  - intros [Hin Hn]. exists a. split; [assumption | apply sql_eq_true; auto].
Qed.



(** ** Conflict-free row lists *)



Lemma conflict_free_filter cols keys (p : row -> bool) l :
  conflict_free cols keys l = true ->
  conflict_free cols keys (List.filter p l) = true.
Proof.
  induction l as [|a l IH]; simpl; [reflexivity|].
  rewrite andb_true_iff, negb_true_iff. intros [Hex Hcf].
  destruct (p a); simpl; [|auto].
  rewrite IH by assumption. rewrite andb_true_r, negb_true_iff.
  destruct (existsb (row_conflict cols keys a) (List.filter p l)) eqn:E; [|reflexivity].
  apply existsb_exists in E as (x & Hx & Hc). apply filter_In in Hx as [Hx _].
  assert (existsb (row_conflict cols keys a) l = true) by (apply existsb_exists; eauto).
  congruence.
Qed.

(** ** Insertion *)

Lemma add_row_keys t r : unique_keys (add_row t r) = unique_keys t.
Proof. reflexivity. Qed.

Lemma insert_rows_schema mode name rows :
  forall t t', insert_rows mode name t rows = Ok t' ->
               t_def t' = t_def t /\ t_indexes t' = t_indexes t.
Proof.
  induction rows as [|r rows IH]; simpl; intros t t' H.
  - inversion H; subst; auto.
  - destruct (conflicts t r).
    + destruct mode; [discriminate | eauto].
    + apply IH in H as [H1 H2]. simpl in *. auto.
Qed.

(** A strict insertion that succeeds has appended every row, in order. *)
Lemma insert_rows_strict name rows :
  forall t t', insert_rows Strict name t rows = Ok t' -> t_rows t' = t_rows t ++ rows.
Proof.
  induction rows as [|r rows IH]; simpl; intros t t' H.
  - inversion H; subst. symmetry. apply app_nil_r.
  - destruct (conflicts t r); [discriminate|].
    apply IH in H. rewrite H. simpl. rewrite <- app_assoc. reflexivity.
Qed.

(** INSERT OR IGNORE never raises. *)
Lemma insert_rows_ignore_total name rows :
  forall t, exists t', insert_rows OrIgnore name t rows = Ok t'.
Proof.
  induction rows as [|r rows IH]; simpl; intros t; [eauto|].
  destruct (conflicts t r); apply IH.
Qed.

Lemma insert_rows_keep mode name rows :
  forall t t' r, insert_rows mode name t rows = Ok t' -> In r (t_rows t) -> In r (t_rows t').
Proof.
  induction rows as [|x rows IH]; simpl; intros t t' r H Hr.
  - inversion H; subst; assumption.
  - destruct (conflicts t x).
    + destruct mode; [discriminate | eauto].
    + eapply IH; [eassumption|]. simpl. apply in_or_app. auto.
Qed.

Lemma insert_rows_from mode name rows :
  forall t t' r, insert_rows mode name t rows = Ok t' ->
                 In r (t_rows t') -> In r (t_rows t) \/ In r rows.
Proof.
  induction rows as [|x rows IH]; simpl; intros t t' r H Hr.
  - inversion H; subst; auto.
  - destruct (conflicts t x).
    + destruct mode; [discriminate|]. destruct (IH _ _ _ H Hr); auto.
    + destruct (IH _ _ _ H Hr) as [Hin | Hin]; [|auto].
      simpl in Hin. apply in_app_or in Hin as [Hin | [<- | []]]; auto.
Qed.



(** ** The two paths *)

Lemma paths_ne : SOURCE_DB <> OUTPUT_DB.
Proof. discriminate. Qed.

(** ** The states of a run *)

Section Run.

Variable fs : filesystem.
Variable src : database.
Hypothesis Hsrc : fs !! SOURCE_DB = Some src.

Local Abbreviation working := (work fs src).
Local Abbreviation synced := (sync fs src).
Local Abbreviation raised := (raised_at fs src).
Local Abbreviation SD := "spectra_databases" (only parsing).
Local Abbreviation CC := "common_compound_categories" (only parsing).

(** Committing writes the source back as it was read. *)
Lemma flush_work sch main txn : flush (working sch main txn) = working main main txn.
Proof using Hsrc.
  unfold flush, work, set_fs. simpl. f_equal.
  rewrite insert_insert_eq. apply insert_id.
  rewrite lookup_insert_ne by (symmetry; apply paths_ne). exact Hsrc.
Qed.

Lemma conn_src_work sch main txn : conn_src (working sch main txn) = src.
Proof using Hsrc.
  unfold conn_src. simpl.
  rewrite lookup_insert_ne by (symmetry; apply paths_ne). rewrite Hsrc. reflexivity.
Qed.

(** *** Schema replication *)

Lemma execute_ddl_sync s out :
  execute_ddl s (synced out) =
  match run_ddl s out with
  | Ok out1 => (Ok tt, synced out1)
  | Raise e => (Raise e, synced out)
  end.
Proof using Hsrc.
  unfold execute_ddl. simpl. destruct (run_ddl s out) as [out'|e]; [|reflexivity].
  simpl. f_equal. apply (flush_work out out' false).
Qed.

Lemma run_ddl_rows_empty s out out' :
  run_ddl s out = Ok out' -> rows_empty out -> rows_empty out'.
Proof.
  intros H He T t. destruct s as [name def | tbl ix]; simpl in H.
  - destruct (out !! name) eqn:E; [discriminate|]. inversion H; subst.
    destruct (decide (name = T)) as [->|Hne].
    + rewrite lookup_insert_eq. intros [= <-]. reflexivity.
    + rewrite lookup_insert_ne by assumption. apply He.
  - destruct (out !! tbl) as [t0|] eqn:E; [|discriminate].
    destruct (index_name_used out (ix_name ix)); [discriminate|].
    destruct (check_columns t0 (ix_columns ix)); simpl in H; [|discriminate].
    destruct (ix_unique ix && _); [discriminate|]. inversion H; subst.
    destruct (decide (tbl = T)) as [->|Hne].
    + rewrite lookup_insert_eq. intros [= <-]. simpl. eapply He; eassumption.
    + rewrite lookup_insert_ne by assumption. apply He.
Qed.

(** The index statements of a table, run after its CREATE TABLE. *)
Lemma create_indexes_sync T def idxs :
  forall pre out,
    out !! T = Some (Table def pre []) -> rows_empty out ->
    exists r out',
      for_each (map (CreateIndex T) idxs) execute_ddl (synced out) = (r, synced out') /\
      rows_empty out' /\
      (forall u, r = Ok u -> out' = <[T := Table def (pre ++ idxs) []]> out).
Proof using Hsrc.
  induction idxs as [|ix idxs IH]; intros pre out HT He; simpl.
  - exists (Ok tt), out. repeat split; auto.
    intros _ _. rewrite app_nil_r. symmetry. apply insert_id. exact HT.
  - unfold bind. rewrite execute_ddl_sync.
    destruct (run_ddl (CreateIndex T ix) out) as [out1|e] eqn:E.
    + assert (He1 : rows_empty out1) by (eapply run_ddl_rows_empty; eauto).
      assert (Hout1 : out1 = <[T := Table def (pre ++ [ix]) []]> out).
      { simpl in E. rewrite HT in E.
        destruct (index_name_used out (ix_name ix)); [discriminate|].
        destruct (check_columns _ (ix_columns ix)); simpl in E; [|discriminate].
        destruct (ix_unique ix && _); [discriminate|]. inversion E; reflexivity. }
      destruct (IH (pre ++ [ix]) out1) as (r & out' & Hrun & He' & Hok); auto.
      { rewrite Hout1. apply lookup_insert_eq. }
      exists r, out'. repeat split; auto.
      intros u Hu. rewrite (Hok u Hu), Hout1, insert_insert_eq, <- app_assoc. reflexivity.
    + exists (Raise e), out. repeat split; auto. intros u [=].
Qed.

Lemma copy_table_schema_sync T out :
  rows_empty out ->
  exists r out',
    copy_table_schema T (synced out) = (r, synced out') /\
    rows_empty out' /\
    (forall u, r = Ok u ->
               out' = match src !! T with
                      | Some s => <[T := empty_copy s]> out
                      | None => out
                      end).
Proof using Hsrc.
  intros He. unfold copy_table_schema, bind, get_schema, get_index_sql, sync.
  rewrite conn_src_work. fold (synced out).
  destruct (src !! T) as [s|] eqn:Es; simpl.
  - rewrite execute_ddl_sync.
    destruct (run_ddl (CreateTable T (t_def s)) out) as [out1|e] eqn:E.
    + assert (He1 : rows_empty out1) by (eapply run_ddl_rows_empty; eauto).
      assert (Hout1 : out1 = <[T := Table (t_def s) [] []]> out).
      { simpl in E. destruct (out !! T); [discriminate|]. inversion E; reflexivity. }
      unfold sync at 1. rewrite conn_src_work, Es. fold (synced out1).
      destruct (create_indexes_sync T (t_def s) (t_indexes s) [] out1)
        as (r & out' & Hrun & He' & Hok); auto.
      { rewrite Hout1. apply lookup_insert_eq. }
      exists r, out'. repeat split; auto.
      intros u Hu. rewrite (Hok u Hu), Hout1, insert_insert_eq. reflexivity.
    + exists (Raise e), out. repeat split; auto. intros u [=].
  - exists (Ok tt), out. repeat split; auto.
Qed.

Lemma copy_schemas_sync names :
  forall out,
    rows_empty out ->
    exists r out',
      for_each names copy_table_schema (synced out) = (r, synced out') /\
      rows_empty out' /\
      (forall u, r = Ok u -> out' = schema_of src names out).
Proof using Hsrc.
  induction names as [|T names IH]; intros out He; simpl.
  - exists (Ok tt), out. repeat split; auto.
  - unfold bind.
    destruct (copy_table_schema_sync T out He) as (r1 & out1 & Hrun1 & He1 & Hok1).
    rewrite Hrun1. destruct r1 as [[]|e].
    + destruct (IH out1 He1) as (r & out' & Hrun & He' & Hok).
      exists r, out'. repeat split; auto.
      intros u Hu. rewrite (Hok u Hu), (Hok1 tt eq_refl). reflexivity.
    + exists (Raise e), out1. repeat split; auto. intros u [=].
Qed.

(** *** Statements on a working state *)

Lemma bind_cases {A B : Type} (m : M A) (k : A -> M B) w r w' :
  bind m k w = (r, w') ->
  (exists e, m w = (Raise e, w') /\ r = Raise e) \/
  (exists a w1, m w = (Ok a, w1) /\ k a w1 = (r, w')).
Proof.
  unfold bind. destruct (m w) as [[a|e] w1]; intros H.
  - right. eauto.
  - left. inversion H; subst. eauto.
Qed.

Lemma select_from_work T wh sch main txn :
  select_from (Some SrcDb) T wh (working sch main txn) =
  match src !! T with
  | Some s => let? _ := check_columns s (cond_columns wh) in Ok (s, matching s wh)
  | None => Raise (NoSuchTable T)
  end.
Proof. unfold select_from. simpl. destruct (src !! T); reflexivity. Qed.

Lemma select_column_work T c wh sch main txn :
  select_column (Some SrcDb) T c wh (working sch main txn) = query_column src T c wh.
Proof. unfold select_column, query_column. simpl. destruct (src !! T); reflexivity. Qed.

Lemma insert_into_work mode T width rows sch main txn t :
  main !! T = Some t ->
  insert_into mode T width rows (working sch main txn) =
  if decide (width = length (td_columns (t_def t))) then
    let? t' := insert_rows mode T t rows in Ok (working sch (<[T := t']> main) txn)
  else Raise (ColumnCountMismatch T).
Proof.
  intros Ht. unfold insert_into. simpl. rewrite Ht. simpl.
  destruct (decide _); [|reflexivity].
  destruct (insert_rows mode T t rows); reflexivity.
Qed.

Lemma covers_insert main T t t' :
  covers src main -> main !! T = Some t ->
  t_def t' = t_def t -> t_indexes t' = t_indexes t ->
  covers src (<[T := t']> main).
Proof.
  intros Hc Ht Hd Hi T0 s HT0 Hs. destruct (Hc T0 s HT0 Hs) as (t0 & Ht0 & Hd0 & Hi0).
  destruct (decide (T = T0)) as [->|Hne].
  - rewrite lookup_insert_eq. exists t'. rewrite Ht in Ht0. inversion Ht0; subst.
    repeat split; congruence.
  - rewrite lookup_insert_ne by assumption. eauto.
Qed.

(** The effect of inserting into a table the rows selected from the
    table of the same name in the source. *)
Lemma insert_into_step mode T s rows sch main txn r w' :
  covers src main -> In T tables_to_copy -> src !! T = Some s ->
  execute_dml (insert_into mode T (length (td_columns (t_def s))) rows)
    (working sch main txn) = (r, w') ->
  raised sch r w' \/
  exists t t',
    r = Ok tt /\ main !! T = Some t /\
    t_def t = t_def s /\ t_indexes t = t_indexes s /\
    insert_rows mode T t rows = Ok t' /\
    covers src (<[T := t']> main) /\
    w' = working sch (<[T := t']> main) true.
Proof.
  intros Hc HT Hs. destruct (Hc T s HT Hs) as (t & Ht & Hd & Hi).
  unfold execute_dml. rewrite (insert_into_work _ _ _ _ _ _ _ t Ht).
  rewrite Hd. destruct (decide _) as [_|Hn]; [|contradiction].
  destruct (insert_rows mode T t rows) as [t'|e] eqn:Ei; simpl; intros [= <- <-].
  - right. exists t, t'. repeat split; auto.
    apply insert_rows_schema in Ei as [Hd' Hi']. eapply covers_insert; eauto.
  - left. exists e, main. destruct (is_constraint_error e); eexists; eauto.
Qed.

Lemma insert_select_step mode T wh sch main txn r w' :
  covers src main -> In T tables_to_copy ->
  execute_dml (insert_select mode T T wh) (working sch main txn) = (r, w') ->
  raised sch r w' \/
  exists s t t',
    r = Ok tt /\ src !! T = Some s /\ main !! T = Some t /\
    t_def t = t_def s /\ t_indexes t = t_indexes s /\
    check_columns s (cond_columns wh) = Ok tt /\
    insert_rows mode T t (matching s wh) = Ok t' /\
    covers src (<[T := t']> main) /\
    w' = working sch (<[T := t']> main) true.
Proof.
  intros Hc HT H.
  assert (Hraise : forall e, @raised_at unit fs src sch (Raise e) (working sch main txn)).
  { intros e. exists e, main, txn. auto. }
  destruct (src !! T) as [s|] eqn:Es.
  - destruct (check_columns s (cond_columns wh)) as [[]|e] eqn:Ec.
    + assert (Heq : execute_dml (insert_select mode T T wh) (working sch main txn) =
                    execute_dml (insert_into mode T (length (td_columns (t_def s)))
                                   (matching s wh)) (working sch main txn)).
      { unfold execute_dml, insert_select. rewrite select_from_work, Es, Ec. reflexivity. }
      rewrite Heq in H.
      destruct (insert_into_step _ _ _ _ _ _ _ _ _ Hc HT Es H)
        as [Hr | (t & t' & -> & Ht & Hd & Hi & Hins & Hc' & ->)]; [left; exact Hr|].
      right. exists s, t, t'. repeat split; auto.
    + left. unfold execute_dml, insert_select in H.
      rewrite select_from_work, Es, Ec in H. simpl in H.
      inversion H; subst. exists e, main. destruct (is_constraint_error e); eexists; eauto.
  - left. unfold execute_dml, insert_select in H.
    rewrite select_from_work, Es in H. simpl in H.
    inversion H; subst. apply Hraise.
Qed.

Lemma raised_any {A B : Type} sch e w :
  @raised_at A fs src sch (Raise e) w -> @raised_at B fs src sch (Raise e) w.
Proof. intros (e' & m' & x' & _ & ->). exists e, m', x'. auto. Qed.

Lemma raised_ok {A : Type} sch (a : A) w : raised sch (Ok a) w -> False.
Proof. intros (e' & m' & x' & [=] & _). Qed.

Lemma raised_here {A : Type} sch main txn e (b : bool) :
  @raised_at A fs src sch (Raise e) (if b then set_txn true (working sch main txn)
                               else working sch main txn).
Proof. exists e, main. destruct b; eexists; eauto. Qed.

Lemma insert_join_step ids sch main txn r w' :
  covers src main ->
  execute_dml (insert_select_join OrIgnore CC CC "compounds" "category_id" "id" "id" ids)
    (working sch main txn) = (r, w') ->
  raised sch r w' \/
  exists tc tp t t',
    r = Ok tt /\ src !! CC = Some tc /\ src !! "compounds" = Some tp /\
    check_columns tp ["category_id"; "id"] = Ok tt /\ check_columns tc ["id"] = Ok tt /\
    main !! CC = Some t /\ t_def t = t_def tc /\ t_indexes t = t_indexes tc /\
    insert_rows OrIgnore CC t (joined tc tp ids) = Ok t' /\
    covers src (<[CC := t']> main) /\
    w' = working sch (<[CC := t']> main) true.
Proof.
  intros Hc H.
  destruct (src !! CC) as [tc|] eqn:Ec;
    [destruct (src !! "compounds") as [tp|] eqn:Ep;
     [destruct (has_column tp "category_id") eqn:E1;
      [destruct (has_column tc "id") eqn:E2;
       [destruct (has_column tp "id") eqn:E3|]|]|]|].
  - assert (Heq : execute_dml
                    (insert_select_join OrIgnore CC CC "compounds" "category_id" "id" "id" ids)
                    (working sch main txn) =
                  execute_dml (insert_into OrIgnore CC (length (td_columns (t_def tc)))
                                 (joined tc tp ids)) (working sch main txn)).
    { unfold execute_dml, insert_select_join, select_join_distinct. simpl.
      rewrite Ec, Ep. simpl. rewrite E1, E2, E3. reflexivity. }
    rewrite Heq in H.
    destruct (insert_into_step _ CC _ _ _ _ _ _ _ Hc ltac:(simpl; auto) Ec H)
      as [Hr | (t & t' & -> & Ht & Hd & Hi & Hins & Hc' & ->)]; [left; exact Hr|].
    right. exists tc, tp, t, t'. simpl. rewrite E1, E2, E3. repeat split; auto.
  - left. unfold execute_dml, insert_select_join, select_join_distinct in H. simpl in H.
    rewrite Ec, Ep in H. simpl in H. rewrite E1, E2, E3 in H. simpl in H.
    inversion H; subst. apply (raised_here sch main txn _ false).
  - left. unfold execute_dml, insert_select_join, select_join_distinct in H. simpl in H.
    rewrite Ec, Ep in H. simpl in H. rewrite E1, E2 in H. simpl in H.
    inversion H; subst. apply (raised_here sch main txn _ false).
  - left. unfold execute_dml, insert_select_join, select_join_distinct in H. simpl in H.
    rewrite Ec, Ep in H. simpl in H. rewrite E1 in H. simpl in H.
    inversion H; subst. apply (raised_here sch main txn _ false).
  - left. unfold execute_dml, insert_select_join, select_join_distinct in H. simpl in H.
    rewrite Ec, Ep in H. simpl in H.
    inversion H; subst. apply (raised_here sch main txn _ false).
  - left. unfold execute_dml, insert_select_join, select_join_distinct in H. simpl in H.
    rewrite Ec in H. simpl in H.
    inversion H; subst. apply (raised_here sch main txn _ false).
Qed.

(** The loop over the distinct database ids. *)
Lemma insert_each_step sch s dids :
  forall main t r w',
    covers src main -> src !! SD = Some s -> main !! SD = Some t ->
    for_each dids
      (fun did => execute_dml (insert_select OrIgnore SD SD (CEq "id" did)))
      (working sch main true) = (r, w') ->
    raised sch r w' \/
    exists t',
      r = Ok tt /\ (dids <> [] -> check_columns s ["id"] = Ok tt) /\
      insert_each_id s t dids = Ok t' /\
      covers src (<[SD := t']> main) /\
      w' = working sch (<[SD := t']> main) true.
Proof.
  induction dids as [|did dids IH]; intros main t r w' Hc Hs Ht H; simpl in H.
  - inversion H; subst. right. exists t. rewrite (insert_id main SD t Ht).
    repeat split; auto. intros Hn; contradiction.
  - apply bind_cases in H as [(e & H1 & ->) | ([] & w1 & H1 & H)].
    + left. apply insert_select_step in H1 as [Hr | (? & ? & ? & [=] & _)];
        [|assumption|simpl; auto]. eapply raised_any; eassumption.
    + apply insert_select_step in H1
        as [Hr | (s0 & t0 & t1 & _ & Hs0 & Ht0 & _ & _ & Hck & Hins & Hc1 & ->)];
        [destruct (raised_ok _ _ _ Hr)| |assumption|simpl; auto].
      rewrite Hs in Hs0. inversion Hs0; subst s0.
      rewrite Ht in Ht0. inversion Ht0; subst t0.
      apply (IH _ t1) in H as [Hr | (t' & -> & _ & Hins' & Hc' & ->)];
        [left; exact Hr| |assumption|assumption|apply lookup_insert_eq].
      right. exists t'. rewrite insert_insert_eq in Hc'. rewrite insert_insert_eq.
      repeat split; auto. simpl. rewrite Hins. exact Hins'.
Qed.

(** *** The replicated schema *)

Lemma schema_of_other names :
  forall out T, ~ In T names -> schema_of src names out !! T = out !! T.
Proof.
  induction names as [|a names IH]; intros out T Hn; simpl; [reflexivity|].
  rewrite IH by (intros Hin; apply Hn; right; exact Hin).
  destruct (src !! a); [|reflexivity].
  apply lookup_insert_ne. intros ->. apply Hn. left. reflexivity.
Qed.

Lemma schema_of_lookup names :
  forall out T s, In T names -> src !! T = Some s ->
                  schema_of src names out !! T = Some (empty_copy s).
Proof.
  induction names as [|a names IH]; intros out T s Hin Hs; simpl; [destruct Hin|].
  destruct (in_dec String.string_dec T names) as [Hin'|Hn]; [apply IH; assumption|].
  destruct Hin as [-> | Hin]; [|contradiction].
  rewrite schema_of_other by assumption. rewrite Hs. apply lookup_insert_eq.
Qed.

Lemma schema_of_covers : covers src (schema_of src tables_to_copy ∅).
Proof.
  intros T s HT Hs. exists (empty_copy s).
  split; [apply schema_of_lookup; assumption | split; reflexivity].
Qed.

(** *** The data copy, statement by statement *)

Lemma matching_true s : matching s CTrue = t_rows s.
Proof.
  unfold matching. simpl. induction (t_rows s) as [|r l IH]; simpl; congruence.
Qed.

Lemma for_each_cons_bind {A B : Type} (x : A) xs (f : A -> M unit) (k : unit -> M B) w :
  bind (for_each (x :: xs) f) k w = bind (f x) (fun _ => bind (for_each xs f) k) w.
Proof. simpl. unfold bind. destruct (f x w) as [[[]|e] w1]; reflexivity. Qed.

Lemma for_each_nil_bind {A B : Type} (f : A -> M unit) (k : unit -> M B) w :
  bind (for_each [] f) k w = k tt w.
Proof. reflexivity. Qed.

Ltac solve_side :=
  first [ eassumption | apply lookup_insert_eq | (simpl; tauto) ].

Ltac refute_ok H :=
  exfalso;
  repeat match type of H with ex _ => destruct H as [? H] end;
  let X := fresh in destruct H as [X _]; discriminate X.

Ltac fresh_table Hnew Hs Ht :=
  match type of Hs with
  | _ !! ?T = Some ?s =>
      rewrite (Hnew T s ltac:(simpl; tauto) Hs) in Ht; injection Ht as <-
  end.

(** One statement of a sequence: either it raised, and so did the
    sequence, or the sequence goes on from the state it left. *)
Ltac run_step H lem :=
  let H1 := fresh "Hstep" in
  let e := fresh "e" in
  let w1 := fresh "w1" in
  apply bind_cases in H as [(e & H1 & ->) | ([] & w1 & H1 & H)];
  [ left; eapply lem in H1;
    [ destruct H1 as [H1 | H1]; [ eapply raised_any; exact H1 | refute_ok H1 ]
    | solve_side .. ]
  | eapply lem in H1;
    [ destruct H1 as [H1 | H1]; [ destruct (raised_ok _ _ _ H1) | ]
    | solve_side .. ] ].

Lemma copy_data_cases ids sch txn r w' :
  copy_data ids (working sch (schema_of src tables_to_copy ∅) txn) = (r, w') ->
  raised sch r w' \/
  exists main', r = Ok tt /\ w' = working sch main' true /\ copied src main' ids.
Proof.
  pose proof schema_of_covers as Hc0.
  pose proof (fun T s H => schema_of_lookup tables_to_copy ∅ T s H) as Hnew.
  set (main0 := schema_of src tables_to_copy ∅) in *.
  intros H. unfold copy_data in H.
  (* spectra_databases, by name *)
  run_step H insert_select_step.
  destruct Hstep as (s1 & t1 & u1 & _ & Hs1 & Ht1 & _ & _ & Hk1 & Hi1 & Hc1 & ->).
  (* the distinct database ids *)
  apply bind_cases in H as [(e & Hq & ->) | (dids & w1 & Hq & H)].
  { left. unfold execute_query in Hq. inversion Hq; subst. exists e. eauto. }
  unfold execute_query in Hq. rewrite select_column_work in Hq.
  destruct (query_column src "compounds" "database_id" _) as [ds|] eqn:Eds;
    simpl in Hq; [|discriminate].
  injection Hq as <- <-.
  run_step H (insert_each_step sch s1).
  destruct Hstep as (u2 & _ & Hk2 & Hi2 & Hc2 & ->).
  rewrite insert_insert_eq in H, Hc2.
  (* categories, solar spectra, compounds *)
  run_step H insert_join_step.
  destruct Hstep as (tc & tp & t3 & u3 & _ & Htc & Htp & Hk3 & Hk3' & Ht3 & _ & _ & Hi3 & Hc3 & ->).
  run_step H insert_select_step.
  destruct Hstep as (s4 & t4 & u4 & _ & Hs4 & Ht4 & _ & _ & Hk4 & Hi4 & Hc4 & ->).
  run_step H insert_select_step.
  destruct Hstep as (s5 & t5 & u5 & _ & Hs5 & Ht5 & _ & _ & Hk5 & Hi5 & Hc5 & ->).
  (* the four linked tables *)
  unfold linked_tables in H.
  rewrite for_each_cons_bind in H. run_step H insert_select_step.
  destruct Hstep as (s6 & t6 & u6 & _ & Hs6 & Ht6 & _ & _ & Hk6 & Hi6 & Hc6 & ->).
  rewrite for_each_cons_bind in H. run_step H insert_select_step.
  destruct Hstep as (s7 & t7 & u7 & _ & Hs7 & Ht7 & _ & _ & Hk7 & Hi7 & Hc7 & ->).
  rewrite for_each_cons_bind in H. run_step H insert_select_step.
  destruct Hstep as (s8 & t8 & u8 & _ & Hs8 & Ht8 & _ & _ & Hk8 & Hi8 & Hc8 & ->).
  rewrite for_each_cons_bind in H. run_step H insert_select_step.
  destruct Hstep as (s9 & t9 & u9 & _ & Hs9 & Ht9 & _ & _ & Hk9 & Hi9 & Hc9 & ->).
  rewrite for_each_nil_bind in H.
  (* the two backup tables *)
  run_step H insert_select_step.
  destruct Hstep as (s10 & t10 & u10 & _ & Hs10 & Ht10 & _ & _ & Hk10 & Hi10 & Hc10 & ->).
  eapply insert_select_step in H; [|solve_side..].
  destruct H as [Hr | (s11 & t11 & u11 & -> & Hs11 & Ht11 & _ & _ & Hk11 & Hi11 & Hc11 & ->)];
    [left; exact Hr|].
  right. eexists. split; [reflexivity|]. split; [reflexivity|].
  (* every table was still the empty copy when its statement ran *)
  repeat match goal with
         | Hx : _ !! _ = Some _ |- _ =>
             rewrite lookup_insert_ne in Hx by discriminate
         end.
  fresh_table Hnew Hs1 Ht1.
  fresh_table Hnew Htc Ht3.
  fresh_table Hnew Hs4 Ht4.
  fresh_table Hnew Hs5 Ht5.
  fresh_table Hnew Hs6 Ht6.
  fresh_table Hnew Hs7 Ht7.
  fresh_table Hnew Hs8 Ht8.
  fresh_table Hnew Hs9 Ht9.
  fresh_table Hnew Hs10 Ht10.
  fresh_table Hnew Hs11 Ht11.
  rewrite matching_true in Hi4.
  unfold copied, database_copy, category_copy, solar_copy, strict_copy.
  repeat split.
  - exists s1, u1, u2, ds. repeat split; auto.
    repeat (rewrite lookup_insert_ne by discriminate). apply lookup_insert_eq.
  - exists tc, tp, u3. repeat split; auto.
    repeat (rewrite lookup_insert_ne by discriminate). apply lookup_insert_eq.
  - exists s4, u4. repeat split; auto.
    repeat (rewrite lookup_insert_ne by discriminate). apply lookup_insert_eq.
  - exists s5, u5. repeat split; auto.
    repeat (rewrite lookup_insert_ne by discriminate). apply lookup_insert_eq.
  - intros T HT. simpl in HT.
    destruct HT as [<-|[<-|[<-|[<-|[<-|[<-|[]]]]]]];
      [exists s6, u6 | exists s7, u7 | exists s8, u8 | exists s9, u9
       | exists s10, u10 | exists s11, u11];
      (repeat split; auto;
       repeat (rewrite lookup_insert_ne by discriminate); apply lookup_insert_eq).
Qed.

(** *** Commit and summary *)

Lemma strict_copy_lookup main' ids T c :
  strict_copy src main' ids T c -> exists t, main' !! T = Some t.
Proof. intros (s & t' & _ & _ & _ & Ht). eauto. Qed.

Lemma finish_ok sch main' ids :
  copied src main' ids ->
  finish (working sch main' true) =
  (Ok (Some (length (rows_of main' "compounds"),
             length (rows_of main' "compounds_absorptions"),
             length (rows_of main' "compounds_emissions"))),
   World (<[OUTPUT_DB := main']> fs) main' None false).
Proof using Hsrc.
  intros (_ & _ & _ & Hcomp & Hdep).
  destruct (strict_copy_lookup _ _ _ _ Hcomp) as (t1 & Ht1).
  destruct (strict_copy_lookup _ _ _ _
              (Hdep "compounds_absorptions" ltac:(simpl; tauto))) as (t2 & Ht2).
  destruct (strict_copy_lookup _ _ _ _
              (Hdep "compounds_emissions" ltac:(simpl; tauto))) as (t3 & Ht3).
  unfold finish, bind, commit. simpl w_txn. cbv iota.
  rewrite flush_work. simpl.
  unfold execute_query, select_count, rows_of. simpl.
  rewrite Ht1, Ht2, Ht3. reflexivity.
Qed.

(** *** The body of [main] from a fresh connection *)

Lemma bind_ok {A B : Type} (m : M A) (k : A -> M B) w a w1 :
  m w = (Ok a, w1) -> bind m k w = k a w1.
Proof. intros H. unfold bind. rewrite H. reflexivity. Qed.

Lemma bind_raise {A B : Type} (m : M A) (k : A -> M B) w e w1 :
  m w = (Raise e, w1) -> bind m k w = (Raise e, w1).
Proof. intros H. unfold bind. rewrite H. reflexivity. Qed.

Lemma attach_fresh :
  attach (World (<[OUTPUT_DB := ∅]> fs) ∅ None false) = (Ok tt, synced ∅).
Proof using Hsrc.
  unfold attach. simpl.
  rewrite lookup_insert_ne by (symmetry; apply paths_ne). rewrite Hsrc. reflexivity.
Qed.

Lemma select_ids_sync out :
  execute_query
    (select_column (Some SrcDb) "compounds" "id"
       (CEq "database_name" (VText TARGET_DATABASE_NAME))) (synced out)
  = (get_compound_ids src, synced out).
Proof. unfold execute_query, sync. rewrite select_column_work. reflexivity. Qed.

Lemma rows_empty_empty : rows_empty ∅.
Proof. intros T t. rewrite lookup_empty. discriminate. Qed.

Lemma main_body_cases :
  exists r w' out,
    main_body (World (<[OUTPUT_DB := ∅]> fs) ∅ None false) = (r, w') /\
    w_fs w' = <[OUTPUT_DB := out]> fs /\
    run_result src out (report_of r).
Proof using Hsrc.
  unfold main_body. rewrite (bind_ok _ _ _ _ _ attach_fresh).
  pose proof (select_ids_sync ∅) as Hsel.
  destruct (get_compound_ids src) as [[|id ids]|e] eqn:Eids.
  - (* nothing selected *)
    rewrite (bind_ok _ _ _ _ _ Hsel).
    exists (Ok None), (synced ∅), ∅. simpl. auto.
  - (* schema, data, summary *)
    rewrite (bind_ok _ _ _ _ _ Hsel). cbv beta iota.
    destruct (copy_schemas_sync tables_to_copy ∅ rows_empty_empty)
      as (r1 & out1 & Hrun & He1 & Hok).
    destruct r1 as [[]|e].
    + rewrite (bind_ok _ _ _ _ _ Hrun).
      specialize (Hok tt eq_refl). subst out1. unfold sync.
      set (sch := schema_of src tables_to_copy ∅) in *.
      destruct (copy_data (id :: ids) (working sch sch false)) as [r2 w2] eqn:Edata.
      pose proof Edata as Hcases.
      apply copy_data_cases in Hcases
        as [(e & main' & txn' & -> & ->) | (main' & -> & -> & Hcopied)].
      * rewrite (bind_raise _ _ _ _ _ Edata).
        exists (Raise e). eexists. exists sch.
        simpl. rewrite Eids. repeat split; auto; discriminate.
      * rewrite (bind_ok _ _ _ _ _ Edata). rewrite (finish_ok _ _ _ Hcopied).
        eexists. eexists. exists main'. split; [reflexivity|]. split; [reflexivity|].
        simpl. exists (id :: ids).
        split; [exact Eids|]. split; [discriminate|]. split; [exact Hcopied|].
        repeat split; reflexivity.
    + rewrite (bind_raise _ _ _ _ _ Hrun).
      exists (Raise e), (synced out1), out1. simpl. rewrite Eids.
      repeat split; auto; discriminate.
  - (* the selection raised *)
    rewrite (bind_raise _ _ _ _ _ Hsel).
    exists (Raise e), (synced ∅), ∅. simpl. rewrite Eids.
    repeat split; auto using rows_empty_empty; discriminate.
Qed.

End Run.

(** ** Every run *)

(** A run that finds the source leaves every file but the output as it
    was, and the output as its report describes. *)
Lemma main_cases (fs : filesystem) (src : database) :
  fs !! SOURCE_DB = Some src ->
  exists out, snd (main fs) = <[OUTPUT_DB := out]> fs /\ run_result src out (fst (main fs)).
Proof.
  intros Hsrc. unfold main. rewrite Hsrc.
  set (fs1 := match fs !! OUTPUT_DB with Some _ => delete OUTPUT_DB fs | None => fs end).
  assert (H1 : fs1 !! OUTPUT_DB = None).
  { unfold fs1. destruct (fs !! OUTPUT_DB) eqn:E; [apply lookup_delete_eq | exact E]. }
  assert (H2 : fs1 !! SOURCE_DB = Some src).
  { unfold fs1. destruct (fs !! OUTPUT_DB);
      [rewrite lookup_delete_ne by (symmetry; apply paths_ne)|]; exact Hsrc. }
  assert (H3 : forall out, <[OUTPUT_DB := out]> fs1 = <[OUTPUT_DB := out]> fs).
  { intros out. unfold fs1. destruct (fs !! OUTPUT_DB); [apply insert_delete_eq | reflexivity]. }
  unfold connect. rewrite H1.
  destruct (main_body_cases fs1 src H2) as (r & w' & out & Hrun & Hfs & Hres).
  rewrite Hrun. simpl. exists out. unfold close. rewrite Hfs, H3. split; [reflexivity|].
  destruct r as [[[[a b] c]|]|e]; exact Hres.
Qed.

Example sample_run :
  main sample_fs = (Written 2 2 1, <[OUTPUT_DB := sample_output]> sample_fs).
Proof. by_compute. Qed.

Example truncated_run :
  main {[ SOURCE_DB := truncated_source ]}
  = (Failed (NoSuchTable "compounds_emissions_backup"),
     <[OUTPUT_DB := schema_of truncated_source tables_to_copy ∅]>
       {[ SOURCE_DB := truncated_source ]}).
Proof. by_compute. Qed.

(** ** Reading a successful run *)

Lemma written_inv fs fs' src dst a b c :
  main fs = (Written a b c, fs') ->
  fs !! SOURCE_DB = Some src -> fs' !! OUTPUT_DB = Some dst ->
  exists ids, get_compound_ids src = Ok ids /\ ids <> [] /\ copied src dst ids /\
              fs' = <[OUTPUT_DB := dst]> fs.
Proof.
  intros Hrun Hsrc Hdst.
  destruct (main_cases fs src Hsrc) as (out & Hfs & Hres).
  rewrite Hrun in Hfs, Hres. simpl in Hfs, Hres. subst fs'.
  rewrite lookup_insert_eq in Hdst. injection Hdst as ->.
  destruct Hres as (ids & Hsel & Hne & Hcop & _). exists ids. auto.
Qed.

Lemma check_columns_cons t c cs :
  check_columns t (c :: cs) = Ok tt <-> has_column t c = true /\ check_columns t cs = Ok tt.
Proof.
  simpl. destruct (has_column t c); split; try tauto; try discriminate.
  intros [? _]. discriminate.
Qed.

(** The selected ids are the ids of the source compounds whose
    [database_name] is the target name, in the order of the table. *)
Lemma selected_ids_inv src ids :
  get_compound_ids src = Ok ids ->
  exists s, src !! "compounds" = Some s /\
            ids = map (col s "id")
                      (matching s (CEq "database_name" (VText TARGET_DATABASE_NAME))).
Proof.
  unfold get_compound_ids, query_column. destruct (src !! "compounds") as [s|]; [|discriminate].
  destruct (check_columns s _); simpl; [|discriminate].
  intros [= <-]. exists s. auto.
Qed.

(** A strictly copied table holds the selected source rows, in order, under
    the structure of the source table. *)
Lemma strict_copy_table src dst ids T c :
  strict_copy src dst ids T c ->
  exists s, src !! T = Some s /\
            dst !! T = Some (Table (t_def s) (t_indexes s) (matching s (CIn c ids))).
Proof.
  intros (s & t' & Hs & _ & Hins & Hdst). exists s. split; [assumption|].
  rewrite Hdst. f_equal.
  pose proof (insert_rows_strict _ _ _ _ Hins) as Hrows.
  apply insert_rows_schema in Hins as [Hd Hi].
  destruct t'; simpl in *. subst. reflexivity.
Qed.

Lemma matching_in s wh r : In r (matching s wh) <-> In r (t_rows s) /\ eval_cond s wh r = true.
Proof. unfold matching. apply filter_In. Qed.

(** An id is among the selected ones exactly when a source compound of
    the selection carries it. *)
Lemma selected_ids_spec src ids s v :
  get_compound_ids src = Ok ids -> src !! "compounds" = Some s ->
  (In v ids <->
   exists r, In r (t_rows s) /\ col s "id" r = v /\
             col s "database_name" r = VText TARGET_DATABASE_NAME).
Proof.
  intros Hsel Hs. apply selected_ids_inv in Hsel as (s' & Hs' & ->).
  rewrite Hs in Hs'. injection Hs' as <-.
  rewrite in_map_iff. split.
  - intros (r & Hv & Hr). apply matching_in in Hr as [Hr Hc]. simpl in Hc.
    apply sql_eq_true in Hc as [Hc _]. eauto.
  - intros (r & Hr & Hv & Hn). exists r. split; [assumption|].
    apply matching_in. split; [assumption|]. simpl. apply sql_eq_true.
    rewrite Hn. split; [reflexivity | discriminate].
Qed.

(** ** The claims *)





(** C2 — no orphans.  After a run that reports success, the
    [compound_id] of every row of the six dependent tables of the
    destination is the id of a row of the destination [compounds] table. *)
Theorem no_orphans fs fs' src dst a b c T r :
  main fs = (Written a b c, fs') ->
  fs !! SOURCE_DB = Some src -> fs' !! OUTPUT_DB = Some dst ->
  In T dependent_tables -> In r (rows_of dst T) ->
  exists p, In p (rows_of dst "compounds") /\
            cell_of dst "compounds" "id" p = cell_of dst T "compound_id" r /\
            cell_of dst T "compound_id" r <> VNull.
Proof.
  intros Hrun Hsrc Hdst HT Hr.
  destruct (written_inv _ _ _ _ _ _ _ Hrun Hsrc Hdst) as (ids & Hsel & _ & Hcop & _).
  destruct Hcop as (_ & _ & _ & Hcomp & Hdep).
  apply strict_copy_table in Hcomp as (sc & Hsc & Hdc).
  apply Hdep, strict_copy_table in HT as (s & Hs & Hd).
  unfold rows_of, cell_of in *. rewrite Hd in *. rewrite Hdc. simpl in *.
  change (col (Table (t_def s) (t_indexes s) (matching s (CIn "compound_id" ids)))
            "compound_id") with (col s "compound_id").
  change (col (Table (t_def sc) (t_indexes sc) (matching sc (CIn "id" ids))) "id")
    with (col sc "id").
  apply matching_in in Hr as [_ Hc]. simpl in Hc. apply sql_in_true in Hc as [Hin Hnn].
  apply (selected_ids_spec src ids sc _ Hsel Hsc) in Hin as (p & Hp & Hid & Hn).
  exists p. repeat split; auto.
  apply matching_in. split; [assumption|]. simpl. apply sql_in_true.
  rewrite Hid. split; [|assumption].
  apply (selected_ids_spec src ids sc _ Hsel Hsc). eauto.
Qed.

Lemma no_orphans_witness :
  In "compounds_emissions" dependent_tables /\
  In [VText "A02"; VInt 300; VInt 3] (rows_of sample_output "compounds_emissions") /\
  exists p, In p (rows_of sample_output "compounds") /\
            cell_of sample_output "compounds" "id" p =
            cell_of sample_output "compounds_emissions" "compound_id"
              [VText "A02"; VInt 300; VInt 3] /\
            cell_of sample_output "compounds_emissions" "compound_id"
              [VText "A02"; VInt 300; VInt 3] <> VNull.
Proof.
  split; [simpl; tauto|]. split; [vm_compute; tauto|].
  apply (no_orphans sample_fs (<[OUTPUT_DB := sample_output]> sample_fs)
           sample_source sample_output 2 2 1);
    [by_compute | by_compute | by_compute | simpl; tauto | vm_compute; tauto].
Defined.

(** ** Runs as a whole *)

Lemma main_no_source fs : fs !! SOURCE_DB = None -> main fs = (SourceNotFound, fs).
Proof. intros H. unfold main. rewrite H. reflexivity. Qed.

(** With a source, a run starts from the files without the output. *)
Lemma main_with_source fs src :
  fs !! SOURCE_DB = Some src ->
  main fs = let (r, w) := main_body (connect (delete OUTPUT_DB fs)) in (report_of r, close w).
Proof.
  intros H. unfold main. rewrite H.
  destruct (fs !! OUTPUT_DB) eqn:E; [|rewrite (delete_id _ _ E)];
    destruct (main_body _) as [[[[[n1 n2] n3]|]|e] w]; reflexivity.
Qed.


(** A second run starts from the same files as the first. *)
Lemma main_rerun fs : main (snd (main fs)) = main fs.
Proof.
  destruct (fs !! SOURCE_DB) as [src|] eqn:E.
  - destruct (main_cases fs src E) as (out & Hfs & _). rewrite Hfs.
    rewrite (main_with_source fs src E).
    rewrite (main_with_source (<[OUTPUT_DB := out]> fs) src).
    + rewrite delete_insert_eq. reflexivity.
    + rewrite lookup_insert_ne by (symmetry; apply paths_ne). exact E.
  - rewrite (main_no_source fs E). simpl. apply main_no_source. exact E.
Qed.

(** C6 — missing source.  When the source file does not exist the run
    returns at once, reporting it, and the files are what they were: no
    output file is created, and an output file that exists stays. *)
Theorem missing_source_no_effect fs :
  fs !! SOURCE_DB = None -> main fs = (SourceNotFound, fs).
Proof. apply main_no_source. Qed.

Lemma missing_source_no_effect_witness :
  ({[ OUTPUT_DB := stale_output ]} : filesystem) !! SOURCE_DB = None /\
  main {[ OUTPUT_DB := stale_output ]} = (SourceNotFound, {[ OUTPUT_DB := stale_output ]}).
Proof.
  split; [by_compute|].
  apply (missing_source_no_effect {[ OUTPUT_DB := stale_output ]}). by_compute.
Defined.

(** C7 — empty selection.  When the root selection on the source returns
    no id, the run returns normally, reporting that no compound was found,
    and the output file is an empty database: whatever it held before is
    gone, and neither a table nor a row was written. *)
Theorem empty_selection_empty_output fs src :
  fs !! SOURCE_DB = Some src -> get_compound_ids src = Ok [] ->
  main fs = (NoCompoundsFound, <[OUTPUT_DB := ∅]> fs).
Proof.
  intros Hsrc Hsel. destruct (main_cases fs src Hsrc) as (out & Hfs & Hres).
  destruct (main fs) as [rep fs'] eqn:E. simpl in Hfs, Hres. subst fs'.
  destruct rep as [| |n1 n2 n3|e]; simpl in Hres.
  - destruct Hres.
  - destruct Hres as [-> _]. reflexivity.
  - destruct Hres as (ids & Hids & Hne & _). rewrite Hsel in Hids.
    injection Hids as <-. contradiction.
  - destruct Hres as [_ Hne]. contradiction.
Qed.

Lemma empty_selection_empty_output_witness :
  (<[OUTPUT_DB := stale_output]> {[ SOURCE_DB := other_source ]} : filesystem) !! SOURCE_DB
    = Some other_source /\
  get_compound_ids other_source = Ok [] /\
  main (<[OUTPUT_DB := stale_output]> {[ SOURCE_DB := other_source ]})
  = (NoCompoundsFound,
     <[OUTPUT_DB := ∅]> (<[OUTPUT_DB := stale_output]> {[ SOURCE_DB := other_source ]})).
Proof.
  split; [by_compute|]. split; [by_compute|].
  apply (empty_selection_empty_output
           (<[OUTPUT_DB := stale_output]> {[ SOURCE_DB := other_source ]}) other_source);
    by_compute.
Defined.



(** C9 — idempotence.  A second run on the files the first run left
    reports what the first reported and leaves the same output: the same
    tables with the same structure and the same number of rows (indeed
    the same rows). *)
Theorem rerun_identical fs :
  let fs1 := snd (main fs) in
  let fs2 := snd (main fs1) in
  fst (main fs1) = fst (main fs) /\
  fs2 !! OUTPUT_DB = fs1 !! OUTPUT_DB /\
  forall T, shape_of (fs2 !! OUTPUT_DB) T = shape_of (fs1 !! OUTPUT_DB) T.
Proof.
  simpl. rewrite (main_rerun fs). repeat split; reflexivity.
Qed.




(** ** Reference data *)

Lemma joined_in tc tp ids x :
  In x (joined tc tp ids) <->
  In x (t_rows tc) /\
  exists comp, In comp (t_rows tp) /\
               sql_eq (col tp "category_id" comp) (col tc "id" x) = true /\
               sql_in (col tp "id" comp) ids = true.
Proof.
  unfold joined. rewrite <- list_elem_of_In, elem_of_remove_dups, list_elem_of_In.
  rewrite in_flat_map. split.
  - intros (c & Hc & Hin). apply in_flat_map in Hin as (comp & Hcomp & Hin).
    destruct (sql_eq _ _ && sql_in _ _) eqn:E; [|destruct Hin].
    destruct Hin as [<- | []]. apply andb_true_iff in E as [E1 E2]. eauto.
  - intros (Hx & comp & Hcomp & E1 & E2). exists x. split; [assumption|].
    apply in_flat_map. exists comp. split; [assumption|]. rewrite E1, E2. left. reflexivity.
Qed.







(** * Further properties of the script *)

(** ** The destination mirrors the source *)




Section Mirror.

Variable fs : filesystem.
Variable src : database.








Hypothesis Hsrc : fs !! SOURCE_DB = Some src.


End Mirror.

Lemma connect_fresh fs :
  connect (delete OUTPUT_DB fs) = World (<[OUTPUT_DB := ∅]> (delete OUTPUT_DB fs)) ∅ None false.
Proof. unfold connect. rewrite lookup_delete_eq. reflexivity. Qed.


Lemma copied_tables src dst ids T :
  copied src dst ids -> In T tables_to_copy -> is_Some (src !! T) /\ is_Some (dst !! T).
Proof.
  intros (Hdb & Hcat & Hsol & Hcomp & Hdep) HT.
  destruct Hdb as (s1 & ? & t1 & ? & Hs1 & _ & _ & _ & _ & _ & Ht1).
  destruct Hcat as (s2 & ? & t2 & Hs2 & _ & _ & _ & _ & Ht2).
  destruct Hsol as (s3 & t3 & Hs3 & _ & Ht3).
  destruct Hcomp as (s4 & t4 & Hs4 & _ & _ & Ht4).
  assert (Hd : forall D, In D dependent_tables -> is_Some (src !! D) /\ is_Some (dst !! D)).
  { intros D HD. destruct (Hdep D HD) as (s & t & Hs & _ & _ & Ht). rewrite Hs, Ht. eauto. }
  simpl in HT.
  destruct HT as [<-|[<-|[<-|[<-|[<-|[<-|[<-|[<-|[<-|[<-|[]]]]]]]]]]];
    try (apply Hd; simpl; tauto);
    match goal with
    | Hs : src !! ?X = Some _, Ht : dst !! ?X = Some _ |- is_Some (src !! ?X) /\ _ =>
        rewrite Hs, Ht; eauto
    end.
Qed.







(** X4 — the summary.  The three numbers of the summary line are the
    numbers of rows of the destination tables [compounds],
    [compounds_absorptions] and [compounds_emissions]. *)
Theorem summary_counts fs fs' dst a b c :
  main fs = (Written a b c, fs') -> fs' !! OUTPUT_DB = Some dst ->
  a = length (rows_of dst "compounds") /\
  b = length (rows_of dst "compounds_absorptions") /\
  c = length (rows_of dst "compounds_emissions").
Proof.
  intros Hrun Hdst. destruct (fs !! SOURCE_DB) as [src|] eqn:Hsrc.
  - destruct (main_cases fs src Hsrc) as (out & Hfs & Hres).
    rewrite Hrun in Hfs, Hres. simpl in Hfs, Hres. subst fs'.
    rewrite lookup_insert_eq in Hdst. injection Hdst as ->.
    destruct Hres as (ids & _ & _ & _ & Ha & Hb & Hc). auto.
  - rewrite (main_no_source fs Hsrc) in Hrun. discriminate.
Qed.

Lemma summary_counts_witness :
  2%nat = length (rows_of sample_output "compounds") /\
  2%nat = length (rows_of sample_output "compounds_absorptions") /\
  1%nat = length (rows_of sample_output "compounds_emissions").
Proof.
  apply (summary_counts sample_fs (<[OUTPUT_DB := sample_output]> sample_fs)
           sample_output 2 2 1);
    by_compute.
Defined.

(** X5 — what decides the two early returns.  A run reports the missing
    source exactly when the source file does not exist, and reports that
    no compound was found exactly when the source exists and the root
    selection returns the empty list. *)
Theorem early_returns_decided fs :
  (fst (main fs) = SourceNotFound <-> fs !! SOURCE_DB = None) /\
  (fst (main fs) = NoCompoundsFound <->
   exists src, fs !! SOURCE_DB = Some src /\ get_compound_ids src = Ok []).
Proof.
  destruct (fs !! SOURCE_DB) as [src|] eqn:Hsrc.
  - destruct (main_cases fs src Hsrc) as (out & _ & Hres). split; split.
    + intros E. rewrite E in Hres. destruct Hres.
    + discriminate.
    + intros E. rewrite E in Hres. exists src. split; [reflexivity | apply Hres].
    + intros (src' & [= <-] & Hsel).
      destruct (fst (main fs)) as [| |n1 n2 n3|e]; simpl in Hres.
      * destruct Hres.
      * reflexivity.
      * destruct Hres as (ids & Hids & Hne & _). rewrite Hsel in Hids.
        injection Hids as <-. contradiction.
      * destruct Hres as [_ Hne]. contradiction.
  - rewrite (main_no_source fs Hsrc). simpl. split; split; auto; try discriminate.
    intros (src' & [=] & _).
Qed.

(** X6 — a failing selection.  When the root selection raises (the
    source has no [compounds] table, or the table lacks one of the two
    columns), the run ends with that exception, and the output file,
    whatever it held, is an empty database. *)
Theorem selection_error_propagates fs src e :
  fs !! SOURCE_DB = Some src -> get_compound_ids src = Raise e ->
  main fs = (Failed e, <[OUTPUT_DB := ∅]> fs).
Proof.
  intros Hsrc Hsel. rewrite (main_with_source fs src Hsrc), connect_fresh.
  assert (Hsrc' : delete OUTPUT_DB fs !! SOURCE_DB = Some src).
  { rewrite lookup_delete_ne by (symmetry; apply paths_ne). exact Hsrc. }
  unfold main_body. rewrite (bind_ok _ _ _ _ _ (attach_fresh _ src Hsrc')).
  pose proof (select_ids_sync (delete OUTPUT_DB fs) src ∅) as Hq. rewrite Hsel in Hq.
  rewrite (bind_raise _ _ _ _ _ Hq). simpl. unfold close. simpl.
  rewrite insert_delete_eq. reflexivity.
Qed.

Lemma selection_error_propagates_witness :
  (<[OUTPUT_DB := stale_output]> {[ SOURCE_DB := delete "compounds" sample_source ]}
     : filesystem) !! SOURCE_DB = Some (delete "compounds" sample_source) /\
  get_compound_ids (delete "compounds" sample_source) = Raise (NoSuchTable "compounds") /\
  main (<[OUTPUT_DB := stale_output]> {[ SOURCE_DB := delete "compounds" sample_source ]})
  = (Failed (NoSuchTable "compounds"),
     <[OUTPUT_DB := ∅]>
       (<[OUTPUT_DB := stale_output]> {[ SOURCE_DB := delete "compounds" sample_source ]})).
Proof.
  split; [by_compute|]. split; [by_compute|].
  apply (selection_error_propagates
           (<[OUTPUT_DB := stale_output]> {[ SOURCE_DB := delete "compounds" sample_source ]})
           (delete "compounds" sample_source) (NoSuchTable "compounds"));
    by_compute.
Defined.

(** X7 — a table missing from the source.  The schema replicator skips a
    table that the source does not have, but the data copy then selects
    from it: when the selection is not empty and the source lacks one of
    the ten tables, the run ends with an exception and leaves an output in
    which no table holds a row. *)
Theorem missing_table_fails fs src ids T :
  fs !! SOURCE_DB = Some src ->
  get_compound_ids src = Ok ids -> ids <> [] ->
  In T tables_to_copy -> src !! T = None ->
  exists e out, main fs = (Failed e, <[OUTPUT_DB := out]> fs) /\ rows_empty out.
Proof.
  intros Hsrc Hsel Hne HT Hmiss.
  destruct (main_cases fs src Hsrc) as (out & Hfs & Hres).
  destruct (main fs) as [rep fs'] eqn:E. simpl in Hfs, Hres. subst fs'.
  destruct rep as [| |n1 n2 n3|e]; simpl in Hres.
  - destruct Hres.
  - destruct Hres as [_ Hempty]. rewrite Hsel in Hempty. injection Hempty as ->.
    contradiction.
  - destruct Hres as (ids' & _ & _ & Hcop & _).
    destruct (copied_tables src out ids' T Hcop HT) as [[s Hs] _]. congruence.
  - exists e, out. split; [reflexivity | apply Hres].
Qed.

Lemma missing_table_fails_witness :
  ({[ SOURCE_DB := truncated_source ]} : filesystem) !! SOURCE_DB = Some truncated_source /\
  get_compound_ids truncated_source = Ok [VText "A01"; VText "A02"] /\
  [VText "A01"; VText "A02"] <> [] /\
  In "compounds_emissions_backup" tables_to_copy /\
  truncated_source !! "compounds_emissions_backup" = None /\
  exists e out,
    main {[ SOURCE_DB := truncated_source ]}
    = (Failed e, <[OUTPUT_DB := out]> {[ SOURCE_DB := truncated_source ]}) /\
    rows_empty out.
Proof.
  split; [by_compute|]. split; [by_compute|]. split; [discriminate|].
  split; [simpl; tauto|]. split; [by_compute|].
  apply (missing_table_fails {[ SOURCE_DB := truncated_source ]} truncated_source
           [VText "A01"; VText "A02"] "compounds_emissions_backup");
    [by_compute | by_compute | discriminate | simpl; tauto | by_compute].
Defined.

(** X8 — the old output does not matter.  With a source, the report and
    the files a run leaves are the same whatever the output file held
    before, or whether it existed: it is removed before anything is
    read. *)
Theorem stale_output_irrelevant fs src d :
  fs !! SOURCE_DB = Some src -> main (<[OUTPUT_DB := d]> fs) = main fs.
Proof.
  intros Hsrc. rewrite (main_with_source fs src Hsrc).
  rewrite (main_with_source (<[OUTPUT_DB := d]> fs) src).
  - rewrite delete_insert_eq. reflexivity.
  - rewrite lookup_insert_ne by (symmetry; apply paths_ne). exact Hsrc.
Qed.

Lemma stale_output_irrelevant_witness :
  ({[ SOURCE_DB := sample_source ]} : filesystem) !! SOURCE_DB = Some sample_source /\
  main (<[OUTPUT_DB := stale_output]> {[ SOURCE_DB := sample_source ]})
  = main {[ SOURCE_DB := sample_source ]}.
Proof.
  split; [by_compute|].
  apply (stale_output_irrelevant {[ SOURCE_DB := sample_source ]} sample_source stale_output).
  by_compute.
Defined.

(** ** What the reference tables and [compounds] hold *)



(** X10 — only referenced categories.  After a run that reports success,
    every row of the destination [common_compound_categories] table is the
    category of a compound of the destination: its id is the
    [category_id] of a destination [compounds] row. *)
Theorem categories_are_referenced fs fs' src dst a b c p :
  main fs = (Written a b c, fs') ->
  fs !! SOURCE_DB = Some src -> fs' !! OUTPUT_DB = Some dst ->
  In p (rows_of dst "common_compound_categories") ->
  exists r, In r (rows_of dst "compounds") /\
            cell_of dst "compounds" "category_id" r
            = cell_of dst "common_compound_categories" "id" p /\
            cell_of dst "common_compound_categories" "id" p <> VNull.
Proof.
  intros Hrun Hsrc Hdst Hp.
  destruct (written_inv _ _ _ _ _ _ _ Hrun Hsrc Hdst) as (ids & _ & _ & Hcop & _).
  destruct Hcop as (_ & Hcat & _ & Hcomp & _).
  apply strict_copy_table in Hcomp as (sc & Hsc & Hdc).
  destruct Hcat as (tc & tp & t' & Htc & Htp & _ & _ & Hins & Ht').
  rewrite Hsc in Htp. injection Htp as <-.
  pose proof (insert_rows_schema _ _ _ _ _ Hins) as [Hd' _].
  unfold rows_of, cell_of in *. rewrite Hdc, Ht' in *. simpl.
  change (col (Table (t_def sc) (t_indexes sc) (matching sc (CIn "id" ids))) "category_id")
    with (col sc "category_id").
  assert (Hcol : col t' "id" = col tc "id") by (unfold col; rewrite Hd'; reflexivity).
  rewrite Hcol.
  destruct (insert_rows_from _ _ _ _ _ _ Hins Hp) as [[] | Hj].
  apply joined_in in Hj as (_ & comp & Hcomp & Heq & Hin).
  apply sql_eq_true in Heq as [Heq Hnn].
  exists comp. split; [apply matching_in; auto|]. split; [exact Heq | congruence].
Qed.

Lemma categories_are_referenced_witness :
  In [VInt 10; VText "Aromatic hydrocarbons"] (rows_of sample_output "common_compound_categories")
  /\
  exists r, In r (rows_of sample_output "compounds") /\
            cell_of sample_output "compounds" "category_id" r
            = cell_of sample_output "common_compound_categories" "id"
                [VInt 10; VText "Aromatic hydrocarbons"] /\
            cell_of sample_output "common_compound_categories" "id"
              [VInt 10; VText "Aromatic hydrocarbons"] <> VNull.
Proof.
  assert (H : In [VInt 10; VText "Aromatic hydrocarbons"]
                (rows_of sample_output "common_compound_categories"))
    by (vm_compute; tauto).
  split; [exact H|].
  apply (categories_are_referenced sample_fs (<[OUTPUT_DB := sample_output]> sample_fs)
           sample_source sample_output 2 2 1);
    [by_compute | by_compute | by_compute | exact H].
Defined.

Lemma insert_each_id_from s dids :
  forall t t',
    insert_each_id s t dids = Ok t' ->
    (forall r, In r (t_rows t) -> In r (t_rows t')) /\
    (forall r, In r (t_rows t') ->
               In r (t_rows t) \/ exists d, In d dids /\ In r (matching s (CEq "id" d))).
Proof.
  induction dids as [|d0 dids IH]; simpl; intros t t' H.
  - injection H as <-. auto.
  - destruct (insert_rows OrIgnore "spectra_databases" t (matching s (CEq "id" d0)))
      as [t1|] eqn:E1; simpl in H; [|discriminate].
    destruct (IH t1 t' H) as [Hkeep Hfrom]. split.
    + intros r Hr. apply Hkeep. eapply insert_rows_keep; eauto.
    + intros r Hr. destruct (Hfrom r Hr) as [H1 | (d & Hd & Hm)]; [|eauto].
      destruct (insert_rows_from _ _ _ _ _ _ E1 H1); eauto.
Qed.

(** X11 — only the databases of the selection.  After a run that reports
    success, every row of the destination [spectra_databases] table either
    has the target name, or has the [database_id] of a source compound of
    the selection as its id. *)
Theorem databases_are_referenced fs fs' src dst a b c p :
  main fs = (Written a b c, fs') ->
  fs !! SOURCE_DB = Some src -> fs' !! OUTPUT_DB = Some dst ->
  In p (rows_of dst "spectra_databases") ->
  cell_of src "spectra_databases" "name" p = VText TARGET_DATABASE_NAME \/
  exists r, In r (rows_of src "compounds") /\
            cell_of src "compounds" "database_name" r = VText TARGET_DATABASE_NAME /\
            cell_of src "compounds" "database_id" r = cell_of src "spectra_databases" "id" p /\
            cell_of src "spectra_databases" "id" p <> VNull.
Proof.
  intros Hrun Hsrc Hdst Hp.
  destruct (written_inv _ _ _ _ _ _ _ Hrun Hsrc Hdst) as (ids & _ & _ & Hcop & _).
  destruct Hcop as (Hdb & _).
  destruct Hdb as (s & t1 & t2 & ds & Hs & _ & Hins1 & Hds & _ & Heach & Ht2).
  unfold rows_of, cell_of in *. rewrite Ht2 in Hp. rewrite Hs.
  destruct (insert_each_id_from _ _ _ _ Heach) as [_ Hfrom].
  destruct (Hfrom p Hp) as [H1 | (d & Hd & Hm)].
  - left. destruct (insert_rows_from _ _ _ _ _ _ Hins1 H1) as [[] | Hm].
    apply matching_in in Hm as [_ Hc]. simpl in Hc. apply sql_eq_true in Hc. tauto.
  - right. apply matching_in in Hm as [_ Hc]. simpl in Hc.
    apply sql_eq_true in Hc as [Hid Hnn].
    apply (proj2 (list_elem_of_In _ _)) in Hd.
    apply (proj1 (elem_of_remove_dups _ _)) in Hd.
    apply (proj1 (list_elem_of_In _ _)) in Hd.
    unfold query_column in Hds. destruct (src !! "compounds") as [sk|]; [|discriminate].
    destruct (check_columns sk _); simpl in Hds; [|discriminate].
    injection Hds as <-. apply in_map_iff in Hd as (r & Hr & Hin).
    apply filter_In in Hin as [Hin Hc]. simpl in Hc.
    apply andb_true_iff in Hc as [Hname _]. apply sql_eq_true in Hname as [Hname _].
    exists r. repeat split; auto; congruence.
Qed.

Lemma databases_are_referenced_witness :
  In [VInt 1; VText "Common Compounds"] (rows_of sample_output "spectra_databases") /\
  (cell_of sample_source "spectra_databases" "name" [VInt 1; VText "Common Compounds"]
   = VText TARGET_DATABASE_NAME \/
   exists r, In r (rows_of sample_source "compounds") /\
             cell_of sample_source "compounds" "database_name" r
             = VText TARGET_DATABASE_NAME /\
             cell_of sample_source "compounds" "database_id" r
             = cell_of sample_source "spectra_databases" "id"
                 [VInt 1; VText "Common Compounds"] /\
             cell_of sample_source "spectra_databases" "id"
               [VInt 1; VText "Common Compounds"] <> VNull).
Proof.
  assert (H : In [VInt 1; VText "Common Compounds"] (rows_of sample_output "spectra_databases"))
    by (vm_compute; tauto).
  split; [exact H|].
  apply (databases_are_referenced sample_fs (<[OUTPUT_DB := sample_output]> sample_fs)
           sample_source sample_output 2 2 1);
    [by_compute | by_compute | by_compute | exact H].
Defined.



(** ** The schema replicator on its own *)




(** X14 — a table that is already there.  When the source has the table
    and the destination has a table of that name, [copy_table_schema]
    raises on its CREATE TABLE and changes nothing: it is why [main]
    removes an existing output file first. *)
Theorem existing_table_raises w T s :
  conn_src w !! T = Some s -> is_Some (w_main w !! T) ->
  copy_table_schema T w = (Raise (TableExists T), w).
Proof.
  intros Hs [t Ht]. unfold copy_table_schema, bind, get_schema, execute_ddl.
  rewrite Hs. simpl. rewrite Ht. reflexivity.
Qed.

Lemma existing_table_raises_witness :
  conn_src stale_world !! "compounds" = Some sample_compounds /\
  is_Some (w_main stale_world !! "compounds") /\
  copy_table_schema "compounds" stale_world = (Raise (TableExists "compounds"), stale_world).
Proof.
  split; [by_compute|]. split; [by_compute|].
  apply (existing_table_raises stale_world "compounds" sample_compounds); by_compute.
Defined.


